(** * The portfolio-analysis agent: a shallow embedding of
      [src/agents/portfolio_analysis_agent.py]

    The file embeds [HandlePortfolioAnalysisRequest.run], the message
    handler of the agent, and proves properties of the envelope it answers
    with.  Python values decoded from JSON are an inductive type; Python
    floats are the kernel's binary64 numbers, so every arithmetic step of the
    handler can be evaluated; exceptions are an error monad; the lookups the
    handler performs and the messages it sends are kept in an explicit world
    that is threaded through the handler. *)

From Stdlib Require Import ZArith QArith Qabs Qpower Lia Lqa.
From Stdlib Require Import List String Ascii Bool.
From Stdlib Require Import PrimFloat SpecFloat FloatOps FloatAxioms.
Import ListNotations.

Local Open Scope string_scope.
Local Open Scope list_scope.

Set Warnings "-register-all".

(* ================================================================== *)
(** * Exceptions *)
(* ================================================================== *)

Module PyExn.

(** The exceptions the handler can meet. *)
Inductive exn : Type :=
| ValueError
| TypeError
| AttributeError
| KeyError
| ZeroDivisionError
| OverflowError
| JSONDecodeError
| LookupFailed.      (* httpx: timeout, transport error, raise_for_status, response.json() *)

(** A computation that returns or raises. *)
Inductive result (A : Type) : Type :=
| Ok (a : A)
| Raise (x : exn).
Arguments Ok {A} a.
Arguments Raise {A} x.

Definition rbind {A B} (r : result A) (k : A -> result B) : result B :=
  match r with
  | Ok a => k a
  | Raise x => Raise x
  end.

End PyExn.

(* ================================================================== *)
(** * Python strings *)
(* ================================================================== *)

(** A Python str is kept as the bytes of its UTF-8 encoding (so a str with
    a lone surrogate has no image here).  These are its characters. *)

Module PyStr.

Local Open Scope N_scope.

Definition byte (c : ascii) : N := N_of_ascii c.

Definition continuation (c : ascii) : bool :=
  (128 <=? byte c) && (byte c <? 192).

(** The characters of a text, each as the bytes that encode it; a byte that
    starts no well-formed sequence stands alone. *)
Fixpoint chars (l : list ascii) : list (list ascii) :=
  match l with
  | [] => []
  | b0 :: l1 =>
      if byte b0 <? 192 then [b0] :: chars l1
      else if byte b0 <? 224 then
        match l1 with
        | b1 :: l2 =>
            if continuation b1 then [b0; b1] :: chars l2 else [b0] :: chars l1
        | _ => [b0] :: chars l1
        end
      else if byte b0 <? 240 then
        match l1 with
        | b1 :: b2 :: l3 =>
            if continuation b1 && continuation b2
            then [b0; b1; b2] :: chars l3 else [b0] :: chars l1
        | _ => [b0] :: chars l1
        end
      else if byte b0 <? 248 then
        match l1 with
        | b1 :: b2 :: b3 :: l4 =>
            if continuation b1 && continuation b2 && continuation b3
            then [b0; b1; b2; b3] :: chars l4 else [b0] :: chars l1
        | _ => [b0] :: chars l1
        end
      else [b0] :: chars l1
  end.

(** The code point of a character; a stray byte is given the code point
    the [surrogateescape] handler gives it. *)
Definition code_point (c : list ascii) : N :=
  match c with
  | [b0; b1] => (byte b0 mod 32) * 64 + byte b1 mod 64
  | [b0; b1; b2] =>
      (byte b0 mod 16) * 4096 + (byte b1 mod 64) * 64 + byte b2 mod 64
  | [b0; b1; b2; b3] =>
      (byte b0 mod 8) * 262144 + (byte b1 mod 64) * 4096
      + (byte b2 mod 64) * 64 + byte b3 mod 64
  | [b0] => if byte b0 <? 128 then byte b0 else 56320 + byte b0
  | _ => 0
  end.

Definition code_points (s : string) : list N :=
  map code_point (chars (list_ascii_of_string s)).

(** The tables [float] consults for a character outside ASCII, from the
    Unicode Character Database 14.0 that CPython 3.11 carries (the
    repository pins no interpreter; later databases add the digits of more
    scripts).  [decimal_zeros] lists the code point of the digit zero of
    every run of ten decimal digits; [spaces] lists the white space. *)
Definition decimal_zeros : list N :=
  [
    48; 1632; 1776; 1984; 2406; 2534; 2662; 2790; 2918; 3046; 3174; 3302;
    3430; 3558; 3664; 3792; 3872; 4160; 4240; 6112; 6160; 6470; 6608; 6784;
    6800; 6992; 7088; 7232; 7248; 42528; 43216; 43264; 43472; 43504; 43600;
    44016; 65296; 66720; 68912; 69734; 69872; 69942; 70096; 70384; 70736;
    70864; 71248; 71360; 71472; 71904; 72016; 72784; 73040; 73120; 92768;
    92864; 93008; 120782; 120792; 120802; 120812; 120822; 123200; 123632;
    125264; 130032
  ].

Definition spaces : list N :=
  [
    9; 10; 11; 12; 13; 28; 29; 30; 31; 32; 133; 160; 5760; 8192; 8193; 8194;
    8195; 8196; 8197; 8198; 8199; 8200; 8201; 8202; 8232; 8233; 8239; 8287;
    12288
  ].

(** [Py_UNICODE_TODECIMAL]. *)
Definition to_decimal (cp : N) : option N :=
  match find (fun z => (z <=? cp) && (cp <? z + 10)) decimal_zeros with
  | Some z => Some (cp - z)
  | None => None
  end.

(** [Py_UNICODE_ISSPACE]. *)
Definition is_unicode_space (cp : N) : bool := existsb (N.eqb cp) spaces.

(** [_PyUnicode_TransformDecimalAndSpaceToASCII]: an ASCII text is left as
    it is; otherwise the characters below 127 are kept, a space becomes
    [" "], a decimal digit its ASCII digit, and the text is cut after a
    ["?"] put for the first character that is none of these. *)
Fixpoint transform (cps : list N) : list ascii :=
  match cps with
  | [] => []
  | cp :: rest =>
      if cp <? 127 then ascii_of_N cp :: transform rest
      else if is_unicode_space cp then " "%char :: transform rest
      else match to_decimal cp with
           | Some d => ascii_of_N (48 + d) :: transform rest
           | None => ["?"%char]
           end
  end.

Definition to_ascii (s : string) : list ascii :=
  let cps := code_points s in
  if forallb (fun cp => cp <? 128) cps
  then list_ascii_of_string s
  else transform cps.

End PyStr.

(* ================================================================== *)
(** * Python floats *)
(* ================================================================== *)

Module PyFloat.

Import PyExn.

Local Open Scope Z_scope.

(** [nearest s n d]: the binary64 number nearest to the rational
    [(-1)^s * n / d] (ties to even; an overflow gives an infinity), for
    [0 < n] and [0 < d].  The quotient is taken with at least 55
    significant bits, the remainder is kept as the location of the exact
    value between two integers, and [binary_round_aux] rounds once. *)
Definition nearest (s : bool) (n d : positive) : float :=
  let k := Z.max 0 (55 + Z.log2 (Zpos d) - Z.log2 (Zpos n)) in
  let num := Z.shiftl (Zpos n) k in
  let q := Z.div num (Zpos d) in
  let r := Z.modulo num (Zpos d) in
  let loc := if Z.eqb r 0 then loc_Exact
             else loc_Inexact (Z.compare (2 * r) (Zpos d)) in
  SF2Prim (binary_round_aux prec emax s q (- k) loc).

Definition of_Z (z : Z) : float :=
  match z with
  | Z0 => zero
  | Zpos p => nearest false p 1
  | Zneg p => nearest true p 1
  end.

(** [x / y] on Python floats: a zero divisor (of either sign) raises. *)
Definition truediv (x y : float) : result float :=
  if eqb y zero then Raise ZeroDivisionError else Ok (div x y).

(** Integer division rounding half to even, for [0 < d]. *)
Definition div_half_even (n d : Z) : Z :=
  let q := Z.div n d in
  let r := Z.modulo n d in
  match Z.compare (2 * r) d with
  | Lt => q
  | Gt => q + 1
  | Eq => if Z.even q then q else q + 1
  end.

(** [round(x, 2)] on a float: the exact value of [x] is rounded to two
    decimals (half to even) and the decimal is converted back to the
    nearest float; infinities and NaN round to themselves and the sign
    of a zero is kept. *)
Definition round2 (x : float) : float :=
  match Prim2SF x with
  | S754_finite s m e =>
      let h := match e with
               | Zneg p => div_half_even (100 * Zpos m) (Z.pow 2 (Zpos p))
               | _ => 100 * Zpos m * Z.pow 2 e
               end in
      match h with
      | Zpos p => nearest s p 100
      | _ => if s then neg_zero else zero
      end
  | _ => x
  end.

(** ** [float(s)] for a string

    The grammar of CPython's [float_from_string_inner]: underscores are
    allowed between two digits and removed, white space is stripped at both
    ends, then the whole text must be an optionally signed decimal number
    ([digits], [digits.], [digits.digits], [.digits], each with an optional
    exponent) or an optionally signed [inf], [infinity] or [nan] in any
    letter case.  The value is the float nearest to the decimal.  The text
    is first taken to ASCII by [PyStr.to_ascii], as [PyFloat_FromString]
    does, so the decimal digits and the spaces of every script are read
    too. *)

Definition code (c : ascii) : Z := Z.of_nat (nat_of_ascii c).

Definition is_digit (c : ascii) : bool := (48 <=? code c) && (code c <=? 57).

Definition is_space (c : ascii) : bool :=
  ((9 <=? code c) && (code c <=? 13)) || (code c =? 32).

Definition lower (c : ascii) : ascii :=
  if (65 <=? code c) && (code c <=? 90)
  then ascii_of_nat (nat_of_ascii c + 32) else c.

Fixpoint drop_while (p : ascii -> bool) (l : list ascii) : list ascii :=
  match l with
  | c :: l' => if p c then drop_while p l' else l
  | [] => []
  end.

Definition strip_by (p : ascii -> bool) (l : list ascii) : list ascii :=
  rev (drop_while p (rev (drop_while p l))).

Fixpoint span_digits (l : list ascii) : list ascii * list ascii :=
  match l with
  | c :: l' =>
      if is_digit c
      then let (ds, rest) := span_digits l' in (c :: ds, rest)
      else ([], l)
  | [] => ([], [])
  end.

Definition digits_value (ds : list ascii) : Z :=
  fold_left (fun acc c => 10 * acc + (code c - 48)) ds 0.

(** Underscores: each must follow a digit and precede a digit. *)
Fixpoint drop_underscores (prev : option ascii) (l : list ascii)
  : option (list ascii) :=
  match l with
  | [] => match prev with
          | Some "_"%char => None
          | _ => Some []
          end
  | c :: l' =>
      if Ascii.eqb c "_"
      then match prev with
           | Some d => if is_digit d then drop_underscores (Some c) l' else None
           | None => None
           end
      else match prev with
           | Some "_"%char =>
               if is_digit c
               then option_map (cons c) (drop_underscores (Some c) l')
               else None
           | _ => option_map (cons c) (drop_underscores (Some c) l')
           end
  end.

Definition take_sign (l : list ascii) : bool * list ascii :=
  match l with
  | "-"%char :: l' => (true, l')
  | "+"%char :: l' => (false, l')
  | _ => (false, l)
  end.

(** The float of sign [s], decimal mantissa [m] and decimal exponent [e]. *)
Definition of_decimal (s : bool) (m e : Z) : float :=
  match m with
  | Zpos p =>
      match e with
      | Zneg k => nearest s p (Pos.pow 10 k)
      | _ => nearest s (p * Z.to_pos (Z.pow 10 e)) 1
      end
  | _ => if s then neg_zero else zero
  end.

Definition parse_decimal (l : list ascii) : option float :=
  let (s, l0) := take_sign l in
  let (ip, l1) := span_digits l0 in
  let (fp, l2) := match l1 with
                  | "."%char :: l1' => span_digits l1'
                  | _ => ([], l1)
                  end in
  match ip ++ fp with
  | [] => None
  | ds =>
      let m := digits_value ds in
      let frac := Z.of_nat (List.length fp) in
      match l2 with
      | [] => Some (of_decimal s m (- frac))
      | c :: l3 =>
          if Ascii.eqb (lower c) "e"
          then let (es, l4) := take_sign l3 in
               match span_digits l4 with
               | ((_ :: _) as ed, []) =>
                   let e := digits_value ed in
                   Some (of_decimal s m ((if es then - e else e) - frac))
               | _ => None
               end
          else None
      end
  end.

Definition parse_inf_or_nan (l : list ascii) : option float :=
  let (s, l0) := take_sign l in
  let w := string_of_list_ascii (map lower l0) in
  if String.eqb w "inf" || String.eqb w "infinity"
  then Some (if s then neg_infinity else infinity)
  else if String.eqb w "nan" then Some nan else None.

Definition float_of_string (s : string) : result float :=
  match drop_underscores None (PyStr.to_ascii s) with
  | None => Raise ValueError
  | Some l =>
      let l := strip_by is_space l in
      match parse_decimal l with
      | Some x => Ok x
      | None =>
          match parse_inf_or_nan l with
          | Some x => Ok x
          | None => Raise ValueError
          end
      end
  end.

(** [s.strip('%')]. *)
Definition strip_percent (s : string) : string :=
  string_of_list_ascii
    (strip_by (fun c => Ascii.eqb c "%") (list_ascii_of_string s)).

(** [float(n)] for a Python int: the nearest float, or OverflowError. *)
Definition float_of_int (z : Z) : result float :=
  let x := of_Z z in
  if is_infinity x then Raise OverflowError else Ok x.

End PyFloat.

(* ================================================================== *)
(** * Python values *)
(* ================================================================== *)

Module Py.

Import PyExn PyFloat.

(** What [json.loads] and [response.json()] return: None, bool, int, float,
    str, list, and dict with its keys in insertion order. *)
Inductive json : Type :=
| JNull
| JBool (b : bool)
| JInt (n : Z)
| JFloat (x : float)
| JStr (s : string)
| JList (l : list json)
| JDict (d : list (string * json)).

(** What the handler builds and serialises with [json.dumps]: values taken
    over from the request, numbers and strings of its own, lists and dicts.
    [VFormat p a] is the string of the f-string [f"{p}{a}"]: the literal
    text [p] followed by [str(a)]. *)
Inductive value : Type :=
| VJson (j : json)
| VInt (n : Z)
| VFloat (x : float)
| VStr (s : string)
| VFormat (prefix : string) (arg : json)
| VList (l : list value)
| VDict (d : list (string * value)).

Definition None_ : value := VJson JNull.

(** Truth value of a decoded value ([not x] is its negation). *)
Definition truthy (v : json) : bool :=
  match v with
  | JNull => false
  | JBool b => b
  | JInt n => negb (Z.eqb n 0)
  | JFloat x => negb (PrimFloat.eqb x zero)
  | JStr s => negb (String.eqb s "")
  | JList l => match l with [] => false | _ => true end
  | JDict d => match d with [] => false | _ => true end
  end.

Fixpoint lookup {A} (d : list (string * A)) (k : string) : option A :=
  match d with
  | [] => None
  | (k', v) :: d' => if String.eqb k' k then Some v else lookup d' k
  end.

(** [d[k] = v]: the binding of [k] is replaced in place, a new key goes last. *)
Fixpoint setitem {A} (d : list (string * A)) (k : string) (v : A)
  : list (string * A) :=
  match d with
  | [] => [(k, v)]
  | (k', v') :: d' =>
      if String.eqb k' k then (k, v) :: d' else (k', v') :: setitem d' k v
  end.

Definition has_key {A} (d : list (string * A)) (k : string) : bool :=
  match lookup d k with Some _ => true | None => false end.

(** [v.get(k, default)]: only a dict has the method. *)
Definition get (v : json) (k : string) (default : json) : result json :=
  match v with
  | JDict d => Ok (match lookup d k with Some x => x | None => default end)
  | _ => Raise AttributeError
  end.

(** [v[k]] for a string key. *)
Definition getitem (v : json) (k : string) : result json :=
  match v with
  | JDict d => match lookup d k with Some x => Ok x | None => Raise KeyError end
  | _ => Raise TypeError
  end.

(** The items a [for] loop takes from [v]: the elements of a list, the keys
    of a dict, the characters of a string; the other values are not
    iterable. *)
Definition iter (v : json) : result (list json) :=
  match v with
  | JList l => Ok l
  | JDict d => Ok (map (fun kv => JStr (fst kv)) d)
  | JStr s => Ok (map (fun c => JStr (string_of_list_ascii c))
                    (PyStr.chars (list_ascii_of_string s)))
  | _ => Raise TypeError
  end.

(** [v.strip('%')]: a method of str. *)
Definition strip (v : json) : result string :=
  match v with
  | JStr s => Ok (strip_percent s)
  | _ => Raise AttributeError
  end.

(** [float(v)]. *)
Definition float_ (v : json) : result float :=
  match v with
  | JStr s => float_of_string s
  | JInt n => float_of_int n
  | JFloat x => Ok x
  | JBool b => Ok (if b then one else zero)
  | _ => Raise TypeError
  end.

(** [v == s] for a string literal [s]. *)
Definition eq_str (v : json) (s : string) : bool :=
  match v with
  | JStr s' => String.eqb s' s
  | _ => false
  end.

End Py.

(* ================================================================== *)
(** * The agent *)
(* ================================================================== *)

Module Agent.

Import PyExn PyFloat Py.

(** ** The world of a run

    What the handler does to the outside is recorded: the symbols it asked
    the quote service for, in order, and the messages it handed to
    [self.send]. *)

Record message : Type := Message
  { to : json;
    performative : string;
    ontology : string;
    body : list (string * value) }.     (* reply_mcp, before json.dumps *)

Record world : Type := World
  { lookups : list json;
    outbox : list message }.

Definition world0 : world := World [] [].

(** The outside of a run.  [fetch i symbol] is what the [i]-th GET of the
    run answers for [symbol] (lines 101-104): [Raise] when the request times
    out, the status is not a success or the body is not JSON, otherwise the
    decoded body.  [utcnow] is the text of the clock read at line 156.
    [accepts] tells whether the transport's [Message(to=...)] takes the
    value as an address (spade raises for anything else). *)
Record env : Type := Env
  { fetch : nat -> json -> result json;
    utcnow : string;
    accepts : json -> bool }.

(** Computations that read and extend the world and may raise. *)
Definition M (A : Type) : Type := world -> world * result A.

Definition ret {A} (a : A) : M A := fun w => (w, Ok a).

Definition bind {A B} (m : M A) (k : A -> M B) : M B :=
  fun w => match m w with
           | (w', Ok a) => k a w'
           | (w', Raise x) => (w', Raise x)
           end.

Definition lift {A} (r : result A) : M A := fun w => (w, r).

(** [try: m except Exception: h]. *)
Definition try_except {A} (m : M A) (h : exn -> M A) : M A :=
  fun w => match m w with
           | (w', Ok a) => (w', Ok a)
           | (w', Raise x) => h x w'
           end.

Notation "x <- m ;; k" := (bind m (fun x => k))
  (at level 61, m at next level, right associativity).
Notation "x <~ r ;; k" := (bind (lift r) (fun x => k))
  (at level 61, r at next level, right associativity).

(** ** The local variables of [run] that the loop updates (lines 69-73) *)

Record locals : Type := Locals
  { status : string;
    error_info : value;
    total_value : float;
    detailed_holdings : list value }.

Definition locals0 : locals := Locals "success" None_ zero [].

(** How one turn of the [for] loop ends. *)
Inductive flow : Type :=
| Next (l : locals)
| Break (l : locals).

Definition total_capital : float := 100000%float.

(** The fields read from the request at lines 63-67. *)
Record fields : Type := Fields
  { intent : json;
    portfolio_items : json;
    task_id : json;
    parent : json;
    reply_to : json }.

Definition extract (data : json) : result fields :=
  rbind (get data "intent" JNull) (fun intent =>
  rbind (getitem data "parameters") (fun parameters =>
  rbind (get parameters "holdings" JNull) (fun portfolio_items =>
  rbind (getitem data "task_id") (fun task_id =>
  rbind (getitem data "parent_task") (fun parent =>
  rbind (getitem data "reply_to") (fun reply_to =>
  Ok (Fields intent portfolio_items task_id parent reply_to))))))).

(** Line 106: the price field of a quote. *)
Definition price_field (api_data : json) : result json :=
  rbind (get api_data "Global Quote" (JDict [])) (fun quote =>
  get quote "05. price" JNull).

(** The error bodies of lines 84-87 and 124-127. *)
Definition invalid_portfolio_item (item : json) : value :=
  VDict [("code", VStr "INVALID_PORTFOLIO_ITEM");
         ("message", VFormat "Invalid portfolio item: " item)].

Definition api_fetch_error (symbol : json) : value :=
  VDict [("code", VStr "API_FETCH_ERROR");
         ("message", VFormat "Could not fetch data for symbol: " symbol)].

Section Handler.

Variable E : env.

(** Lines 101-104: one GET; the lookup is recorded whatever it answers. *)
Definition http_get (symbol : json) : M json :=
  fun w => (World (lookups w ++ [symbol]) (outbox w),
            fetch E (List.length (lookups w)) symbol).

(** [self.send(reply)], after [Message(to=reply_to)] took the address. *)
Definition send (m : message) : M unit :=
  fun w => if accepts E (to m)
           then (World (lookups w) (outbox w ++ [m]), Ok tt)
           else (w, Raise TypeError).

(** Lines 91-117: the body of the inner [try]. *)
Definition try_block (symbol allocation_str : json) (l : locals) : M locals :=
  allocation_percent <~ rbind (strip allocation_str) float_of_string ;;
  fraction <~ truediv allocation_percent 100 ;;
  let capital_allocated := mul fraction total_capital in
  api_data <- http_get symbol ;;
  price_str <~ price_field api_data ;;
  current_price <~ (if truthy price_str then float_ price_str else Ok zero) ;;
  shares <~ truediv capital_allocated current_price ;;
  let shares_estimated := round2 shares in
  ret (Locals (status l) (error_info l)
         (add (total_value l) capital_allocated)
         (detailed_holdings l ++
            [VDict [("symbol", VJson symbol);
                    ("allocation_percent", VFloat allocation_percent);
                    ("capital_allocated", VFloat (round2 capital_allocated));
                    ("estimated_shares", VFloat shares_estimated);
                    ("current_price", VFloat current_price)]])).

(** Lines 121-128: the handler of the inner [try]. *)
Definition except_block (symbol : json) (l : locals) : locals :=
  Locals "failure" (api_fetch_error symbol)
    (total_value l) (detailed_holdings l).

(** Lines 83-88. *)
Definition invalid_item (item : json) (l : locals) : locals :=
  Locals "failure" (invalid_portfolio_item item)
    (total_value l) (detailed_holdings l).

(** Lines 79-128: one turn of the loop. *)
Definition loop_body (item : json) (l : locals) : M flow :=
  symbol <~ get item "symbol" JNull ;;
  allocation_str <~ get item "allocation" JNull ;;
  if negb (truthy symbol) || negb (truthy allocation_str)
  then ret (Break (invalid_item item l))
  else try_except
         (l' <- try_block symbol allocation_str l ;; ret (Next l'))
         (fun _ => ret (Break (except_block symbol l))).

(** Line 78: [for item in portfolio_items]. *)
Fixpoint for_each (items : list json) (l : locals) : M locals :=
  match items with
  | [] => ret l
  | item :: rest =>
      f <- loop_body item l ;;
      match f with
      | Next l' => for_each rest l'
      | Break l' => ret l'
      end
  end.

(** Lines 130-138. *)
Definition summary (l : locals) : value :=
  VDict [("portfolio_summary",
           VDict [("total_estimated_value", VFloat (round2 (total_value l)));
                  ("base_capital", VFloat total_capital);
                  ("num_holdings", VInt (Z.of_nat (List.length (detailed_holdings l))))]);
         ("holdings_details", VList (detailed_holdings l))].

(** Lines 75-146: status, result_data and error_info of the request. *)
Definition process (f : fields) : M (string * value * value) :=
  if eq_str (intent f) "analyze_portfolio"
  then items <~ iter (portfolio_items f) ;;
       l <- for_each items locals0 ;;
       ret (status l,
            (if String.eqb (status l) "success" then summary l else None_),
            error_info l)
  else ret ("failure", None_,
            VDict [("code", VStr "UNEXPECTED_INTENT");
                   ("message", VFormat "Unexpected intent: " (intent f))]).

(** Lines 148-162. *)
Definition reply_mcp (f : fields) (status : string) (result_data error_info : value)
  : list (string * value) :=
  let reply_mcp :=
    [("protocol", VStr "finance_mcp");
     ("version", VStr "1.0");
     ("type", VStr "response");
     ("task_id", VJson (task_id f));
     ("parent_task", VJson (parent f));
     ("intent", VJson (intent f));
     ("status", VStr status);
     ("timestamp", VStr (utcnow E))] in
  if String.eqb status "success"
  then setitem reply_mcp "result" result_data
  else setitem reply_mcp "error" error_info.

(** Lines 164-169. *)
Definition reply (f : fields) (status : string) (result_data error_info : value)
  : message :=
  Message (reply_to f)
    (if String.eqb status "success" then "inform" else "failure")
    "finance-task"
    (reply_mcp f status result_data error_info).

(** Lines 60-170: the body of the outer [try]; [decoded] is what
    [json.loads(msg.body)] gives. *)
Definition handle (decoded : result json) : M unit :=
  data <~ decoded ;;
  f <~ extract data ;;
  r <- process f ;;
  let '(status, result_data, error_info) := r in
  send (reply f status result_data error_info).

(** Lines 56-175.  [msg] is what [self.receive] returned: nothing after the
    timeout, or a message, given by the decoding of its body.  Both
    [except] clauses log and go on, so a run ends in a world and nothing
    else. *)
Definition run (msg : option (result json)) (w : world) : world :=
  match msg with
  | None => w
  | Some decoded => fst (try_except (handle decoded) (fun _ => ret tt) w)
  end.

(** ** Reading the loop

    [complete items l w] is [Some (l', w')] when every holding of [items]
    is processed to the end of the loop body (no [break], no exception),
    taking the locals from [l] to [l'] and the world from [w] to [w']. *)
Fixpoint complete (items : list json) (l : locals) (w : world)
  : option (locals * world) :=
  match items with
  | [] => Some (l, w)
  | item :: rest =>
      match loop_body item l w with
      | (w', Ok (Next l')) => complete rest l' w'
      | _ => None
      end
  end.

End Handler.

(** The value of a key of a holding, as [item.get(k)] reads it. *)
Definition field (d : list (string * json)) (k : string) : json :=
  match lookup d k with Some x => x | None => JNull end.

Definition symbol_of (item : json) : json :=
  match item with JDict d => field d "symbol" | _ => JNull end.

(** Line 91, for a holding. *)
Definition allocation_percent_of (item : json) : result float :=
  rbind (get item "allocation" JNull) (fun allocation_str =>
  rbind (strip allocation_str) float_of_string).

(** Line 92, for a holding: the capital before any rounding. *)
Definition capital_allocated_of (item : json) : result float :=
  rbind (allocation_percent_of item) (fun allocation_percent =>
  Ok (mul (div allocation_percent 100) total_capital)).

Fixpoint map_result {A B} (f : A -> result B) (l : list A) : result (list B) :=
  match l with
  | [] => Ok []
  | a :: l' => rbind (f a) (fun b => rbind (map_result f l') (fun bs => Ok (b :: bs)))
  end.

(** [data] decodes to the fields [f], asks for the recognised intent and
    carries the holdings [items]. *)
Definition analyze_request (data : json) (f : fields) (items : list json)
  : Prop :=
  extract data = Ok f /\
  eq_str (intent f) "analyze_portfolio" = true /\
  iter (portfolio_items f) = Ok items.

(** Two outsides that give the same price field at every lookup. *)
Definition same_prices (E1 E2 : env) : Prop :=
  forall i symbol,
    rbind (fetch E1 i symbol) price_field = rbind (fetch E2 i symbol) price_field.

Definition is_dict (v : json) : bool :=
  match v with JDict _ => true | _ => false end.

(** A decoded request that the handler can answer: every field read at
    lines 63-67 is there, the transport takes [reply_to] as an address and,
    when the intent is the recognised one, the holdings are a sequence of
    objects. *)
Definition answerable (E : env) (data : json) : bool :=
  match extract data with
  | Ok f =>
      accepts E (reply_to f) &&
      (if eq_str (intent f) "analyze_portfolio"
       then match iter (portfolio_items f) with
            | Ok items => forallb is_dict items
            | Raise _ => false
            end
       else true)
  | Raise _ => false
  end.

(** A reply without its time stamp. *)
Definition without_timestamp (m : message) : message :=
  Message (to m) (performative m) (ontology m)
    (filter (fun kv => negb (String.eqb (fst kv) "timestamp")) (body m)).

(** The total a reply reports, when it reports one. *)
Definition reported_total (m : message) : option value :=
  match lookup (body m) "result" with
  | Some (VDict r) =>
      match lookup r "portfolio_summary" with
      | Some (VDict s) => lookup s "total_estimated_value"
      | _ => None
      end
  | _ => None
  end.

(** The holdings a reply lists, when it lists any. *)
Definition reported_holdings (m : message) : option value :=
  match lookup (body m) "result" with
  | Some (VDict r) => lookup r "holdings_details"
  | _ => None
  end.

(** The capital an output holding reports. *)
Definition holding_capital (h : value) : option value :=
  match h with
  | VDict d => lookup d "capital_allocated"
  | _ => None
  end.

(** The error of a reply, when it has one. *)
Definition reported_error (m : message) : option value :=
  lookup (body m) "error".

End Agent.

(* ================================================================== *)
(** * Sample requests and quote services *)
(* ================================================================== *)

Module Examples.

Import PyExn PyFloat Py Agent.

Definition holding (symbol allocation : string) : list (string * json) :=
  [("symbol", JStr symbol); ("allocation", JStr allocation)].

Definition request (intent : string) (holdings : list json) : json :=
  JDict [("intent", JStr intent);
         ("parameters", JDict [("holdings", JList holdings)]);
         ("task_id", JStr "task-1");
         ("parent_task", JStr "root-0");
         ("reply_to", JStr "orchestrator@localhost")].

(** The same request without its [task_id]. *)
Definition request_without_task_id : json :=
  JDict [("intent", JStr "analyze_portfolio");
         ("parameters", JDict [("holdings", JList [])]);
         ("parent_task", JStr "root-0");
         ("reply_to", JStr "orchestrator@localhost")].

Definition the_fields (intent : string) (holdings : list json) : fields :=
  Fields (JStr intent) (JList holdings) (JStr "task-1") (JStr "root-0")
    (JStr "orchestrator@localhost").

(** A GLOBAL_QUOTE answer carrying a price, and one without the field. *)
Definition quote (symbol price : string) : json :=
  JDict [("Global Quote",
          JDict [("01. symbol", JStr symbol); ("05. price", JStr price)])].

Definition quote_without_price : json := JDict [("Global Quote", JDict [])].

(** AAPL trades at 100 and MSFT at 200; TSLA is answered without a price;
    every other lookup fails. *)
Definition market (i : nat) (symbol : json) : result json :=
  if eq_str symbol "AAPL" then Ok (quote "AAPL" "100")
  else if eq_str symbol "MSFT" then Ok (quote "MSFT" "200")
  else if eq_str symbol "TSLA" then Ok quote_without_price
  else Raise LookupFailed.

Definition is_str (v : json) : bool :=
  match v with JStr _ => true | _ => false end.

Definition E0 : env := Env market "2024-01-01T00:00:00" is_str.

(** The same prices at another time, in answers that carry one more field. *)
Definition dated (api_data : json) : json :=
  match api_data with
  | JDict [(k, JDict q)] =>
      JDict [(k, JDict (q ++ [("07. latest trading day", JStr "2024-06-28")]))]
  | _ => api_data
  end.

Definition market_later (i : nat) (symbol : json) : result json :=
  match market i symbol with
  | Ok api_data => Ok (dated api_data)
  | Raise x => Raise x
  end.

Definition E1 : env := Env market_later "2024-06-30T12:00:00" is_str.

(** Scenario A of the specification. *)
Definition scenario_A : list json :=
  [JDict (holding "AAPL" "50%"); JDict (holding "MSFT" "50%")].

Definition scenario_A_result : value :=
  VDict [("portfolio_summary",
           VDict [("total_estimated_value", VFloat 100000);
                  ("base_capital", VFloat 100000);
                  ("num_holdings", VInt 2)]);
         ("holdings_details",
           VList [VDict [("symbol", VJson (JStr "AAPL"));
                         ("allocation_percent", VFloat 50);
                         ("capital_allocated", VFloat 50000);
                         ("estimated_shares", VFloat 500);
                         ("current_price", VFloat 100)];
                  VDict [("symbol", VJson (JStr "MSFT"));
                         ("allocation_percent", VFloat 50);
                         ("capital_allocated", VFloat 50000);
                         ("estimated_shares", VFloat 250);
                         ("current_price", VFloat 200)]])].

(** Three holdings whose percentages, 33.3, 33.3 and 33.4, are no floats:
    the floats they are read as add up to a little less than 100. *)
Definition thirds : list json :=
  [JDict (holding "AAPL" "33.3%"); JDict (holding "MSFT" "33.3%");
   JDict (holding "AAPL" "33.4%")].

Definition thirds_allocations : list float :=
  Eval vm_compute in
    match map_result allocation_percent_of thirds with
    | Ok l => l
    | Raise _ => []
    end.

(** One holding whose values need their rounding: 58 / 100 * 100000.0 is
    57999.999999999993 as a float, and a price of 7 does not divide it.
    The reply lists 58000.0 and 8285.71. *)
Definition fifty_eight : list json := [JDict (holding "AAPL" "58%")].

Definition fifty_eight_holding : value :=
  VDict [("symbol", VJson (JStr "AAPL"));
         ("allocation_percent", VFloat 58);
         ("capital_allocated", VFloat 58000);
         ("estimated_shares", VFloat 0x1.02edae147ae14p+13);
         ("current_price", VFloat 7)].

Definition fifty_eight_result : value :=
  VDict [("portfolio_summary",
           VDict [("total_estimated_value", VFloat 58000);
                  ("base_capital", VFloat 100000);
                  ("num_holdings", VInt 1)]);
         ("holdings_details", VList [fifty_eight_holding])].

End Examples.

(* ================================================================== *)
(** * The exact values of floats *)
(* ================================================================== *)

(** The specification speaks of numbers, the handler computes with floats.
    To compare them, a float is given the rational number it stands for:
    [m * 2^e] for the finite float of mantissa [m] and exponent [e].  The
    definitions below are what the statements about sums and rounding are
    written with. *)

Module Exact.

Import PyExn PyFloat Py Agent.

Local Open Scope Q_scope.

Definition pow2 (e : Z) : Q := Qpower 2 e.

(** The magnitude of a specified float; 0 when it is no finite number. *)
Definition SFmag (f : spec_float) : Q :=
  match f with
  | S754_finite _ m e => inject_Z (Zpos m) * pow2 e
  | _ => 0
  end.

(** Zero (of either sign) or a positive finite number. *)
Definition SFnonneg (f : spec_float) : bool :=
  match f with
  | S754_zero _ | S754_finite false _ _ => true
  | _ => false
  end.

Definition mag (x : float) : Q := SFmag (Prim2SF x).

Definition non_negative (x : float) : bool := SFnonneg (Prim2SF x).

(** The number a float stands for; 0 for the infinities and NaN. *)
Definition exact_value (x : float) : Q :=
  match Prim2SF x with
  | S754_finite s m e =>
      (if s then -1 else 1) * (inject_Z (Zpos m) * pow2 e)
  | _ => 0
  end.

(** The sum of a list of floats as numbers, without any rounding. *)
Fixpoint sum_exact (l : list float) : Q :=
  match l with
  | [] => 0
  | a :: l' => exact_value a + sum_exact l'
  end.

Fixpoint sum_mag (l : list float) : Q :=
  match l with
  | [] => 0
  | c :: l' => mag c + sum_mag l'
  end.

Definition count_of (l : list float) : Q :=
  inject_Z (Z.of_nat (List.length l)).

(** Line 92 as a function of the allocation. *)
Definition capital (allocation_percent : float) : float :=
  mul (div allocation_percent 100) total_capital.

(** [located m e l x]: the number [x] lies in the interval from [m * 2^e]
    to [(m + 1) * 2^e], at the place the location [l] tells: on the lower
    end, below the middle, on the middle, or above it. *)
Definition located (m e : Z) (l : location) (x : Q) : Prop :=
  match l with
  | loc_Exact => x == inject_Z m * pow2 e
  | loc_Inexact Lt =>
      inject_Z m * pow2 e < x /\ 2 * x < (2 * inject_Z m + 1) * pow2 e
  | loc_Inexact Eq => 2 * x == (2 * inject_Z m + 1) * pow2 e
  | loc_Inexact Gt =>
      (2 * inject_Z m + 1) * pow2 e < 2 * x /\ x < (inject_Z m + 1) * pow2 e
  end.

Definition record_loc (r s : bool) : location :=
  loc_of_shr_record (Build_shr_record 0 r s).

(** The bound on the error of one correctly rounded operation whose exact
    result is [x >= 0]: a relative error of [2^-53], or half the spacing
    of the subnormal numbers. *)
Definition half_ulp (x : Q) : Q := pow2 (-53) * x + pow2 (-1075).

(** The bound on the error of one addition of line 117 below [2^17]. *)
Definition add_error : Q := (1 # 68719476736) + pow2 (-1075).

(** [round(x, 2) == r] in the words of the specification: [r] is [x]
    rounded to 2 decimals.  For a finite [x] there is a whole number [k] of
    hundredths within half a hundredth of the magnitude of [x], the even
    one when [x] is midway between two, and [r] is the float that the
    decimal numeral of [k] hundredths, with the sign of [x], reads as;
    an infinity and NaN are left as they are. *)
Definition rounded_to_2_decimals (x r : float) : Prop :=
  match Prim2SF x with
  | S754_finite s _ _ =>
      exists k : Z,
        (0 <= k)%Z /\
        Qabs (100 * mag x - inject_Z k) <= 1 # 2 /\
        (Qabs (100 * mag x - inject_Z k) == 1 # 2 -> Z.even k = true) /\
        r = of_decimal s k (-2)
  | _ => r = x
  end.

End Exact.

(* ================================================================== *)
(** * The agent around the handler *)
(* ================================================================== *)

(** What [setup] (lines 177-195) and the transport add to the handler, and
    readings of a reply used by the properties of the whole run. *)

Module Service.

Import PyExn PyFloat Py Agent.

(** Lines 192-194: the template the behaviour is registered with.  Only its
    metadata are set. *)
Definition request_template : list (string * string) :=
  [("performative", "request"); ("ontology", "finance-task")].

(** Lines 165-166: the metadata of a reply. *)
Definition metadata (m : message) : list (string * string) :=
  [("performative", performative m); ("ontology", ontology m)].

(** A template whose metadata alone are set matches a message that carries
    each of them with the same value. *)
Definition matches (t : list (string * string)) (m : message) : bool :=
  forallb (fun kv => match lookup (metadata m) (fst kv) with
                     | Some v => String.eqb v (snd kv)
                     | None => false
                     end) t.

(** The cyclic behaviour: [run] is called again for each thing [receive]
    returns, on the world the call before left (so the lookups are counted
    across the calls). *)
Definition serve (E : env) (received : list (option (result json)))
  (w : world) : world :=
  fold_left (fun w msg => run E msg w) received w.

(** The same outside with a transport that takes every address. *)
Definition accepting (E : env) : env := Env (fetch E) (utcnow E) (fun _ => true).

(** The three error codes of the handler. *)
Definition error_codes : list string :=
  ["UNEXPECTED_INTENT"; "INVALID_PORTFOLIO_ITEM"; "API_FETCH_ERROR"].

(** The code of an error body. *)
Definition error_code (err : value) : option value :=
  match err with
  | VDict d => lookup d "code"
  | _ => None
  end.

(** The symbol and the price an output holding reports. *)
Definition holding_symbol (h : value) : option value :=
  match h with
  | VDict d => lookup d "symbol"
  | _ => None
  end.

Definition holding_price (h : value) : option value :=
  match h with
  | VDict d => lookup d "current_price"
  | _ => None
  end.

(** The number of holdings a reply reports, when it reports one. *)
Definition reported_count (m : message) : option value :=
  match lookup (body m) "result" with
  | Some (VDict r) =>
      match lookup r "portfolio_summary" with
      | Some (VDict s) => lookup s "num_holdings"
      | _ => None
      end
  | _ => None
  end.

(** A holding the loop can price: its symbol is non-empty and its
    allocation reads as a number. *)
Definition usable (item : json) : Prop :=
  truthy (symbol_of item) = true /\
  exists a, allocation_percent_of item = Ok a.

(** A quote service that does not tell one request from the next. *)
Definition memoryless (E : env) : Prop :=
  forall i j symbol, fetch E i symbol = fetch E j symbol.

(** [after w w']: the world [w] followed by what [w'] records. *)
Definition after (w w' : world) : world :=
  World (lookups w ++ lookups w') (outbox w ++ outbox w').

(** A computation does the same after any past, and adds to it. *)
Definition stable {A} (m : M A) : Prop :=
  forall w w0, m (after w w0) = let (w1, r) := m w0 in (after w w1, r).

(** Values a [for] loop can take items from. *)
Definition iterable (v : json) : bool :=
  match v with
  | JList _ | JDict _ | JStr _ => true
  | _ => false
  end.

(** The keys line 64 to 67 index without a default. *)
Definition required_keys : list string :=
  ["parameters"; "task_id"; "parent_task"; "reply_to"].

(** A quote service that answers every symbol with the price text [p]. *)
Definition flat_market (p : string) (i : nat) (symbol : json) : result json :=
  Ok (JDict [("Global Quote", JDict [("05. price", JStr p)])]).

Definition E_flat (p : string) : env :=
  Env (flat_market p) "2024-01-01T00:00:00" Examples.is_str.

(** A transport that takes no address. *)
Definition E_deaf : env :=
  Env Examples.market "2024-01-01T00:00:00" (fun _ => false).

End Service.

(* ================================================================== *)
(** * Facts about the handler *)
(* ================================================================== *)

Import PyExn PyFloat Py Agent Exact.

Ltac unfold_m := unfold bind, lift, ret, try_except in *.

Section LoopFacts.

Variable E : env.

(** The loop body on a holding judged invalid at line 82. *)
Lemma loop_body_invalid d l w :
  truthy (field d "symbol") && truthy (field d "allocation") = false ->
  loop_body E (JDict d) l w = (w, Ok (Break (invalid_item (JDict d) l))).
Proof.
  intros H. unfold loop_body, get. fold (field d "symbol") (field d "allocation").
  unfold_m. rewrite <- negb_andb, H. reflexivity.
Qed.

(** The loop body on a valid holding runs the inner [try]. *)
Lemma loop_body_valid d l w :
  truthy (field d "symbol") && truthy (field d "allocation") = true ->
  loop_body E (JDict d) l w =
    match try_block E (field d "symbol") (field d "allocation") l w with
    | (w', Ok l') => (w', Ok (Next l'))
    | (w', Raise _) => (w', Ok (Break (except_block (field d "symbol") l)))
    end.
Proof.
  intros H. unfold loop_body, get. fold (field d "symbol") (field d "allocation").
  unfold_m. rewrite <- negb_andb, H. cbn [negb].
  destruct (try_block E _ _ l w) as [w' [l'|x]]; reflexivity.
Qed.

(** A holding whose allocation text is not a number: no lookup is made. *)
Lemma try_block_parse_error symbol allocation_str l w x :
  rbind (strip allocation_str) float_of_string = Raise x ->
  try_block E symbol allocation_str l w = (w, Raise x).
Proof.
  intros H. unfold try_block. unfold_m. rewrite H. reflexivity.
Qed.

(** A holding whose lookup fails. *)
Lemma try_block_lookup_error symbol allocation_str l w a x :
  rbind (strip allocation_str) float_of_string = Ok a ->
  fetch E (List.length (lookups w)) symbol = Raise x ->
  try_block E symbol allocation_str l w =
    (World (lookups w ++ [symbol]) (outbox w), Raise x).
Proof.
  intros Ha Hf. unfold try_block, http_get, truediv. unfold_m.
  rewrite Ha. cbn. rewrite Hf. reflexivity.
Qed.

(** A holding whose lookup answers: what the rest of the [try] does with
    the price field. *)
Lemma try_block_lookup_ok symbol allocation_str l w a api_data :
  rbind (strip allocation_str) float_of_string = Ok a ->
  fetch E (List.length (lookups w)) symbol = Ok api_data ->
  try_block E symbol allocation_str l w =
    let w' := World (lookups w ++ [symbol]) (outbox w) in
    let capital_allocated := mul (div a 100) total_capital in
    match rbind (price_field api_data) (fun price_str =>
            if truthy price_str then float_ price_str else Ok zero) with
    | Raise x => (w', Raise x)
    | Ok current_price =>
        match truediv capital_allocated current_price with
        | Raise x => (w', Raise x)
        | Ok shares =>
            (w', Ok (Locals (status l) (error_info l)
                       (add (total_value l) capital_allocated)
                       (detailed_holdings l ++
                          [VDict [("symbol", VJson symbol);
                                  ("allocation_percent", VFloat a);
                                  ("capital_allocated", VFloat (round2 capital_allocated));
                                  ("estimated_shares", VFloat (round2 shares));
                                  ("current_price", VFloat current_price)]])))
        end
    end.
Proof.
  intros Ha Hf. unfold try_block, http_get. unfold_m.
  rewrite Ha. cbn -[price_field truthy float_ round2 total_capital].
  rewrite Hf.
  destruct (price_field api_data) as [price_str|x]; cbn [rbind]; [|reflexivity].
  destruct (if truthy price_str then float_ price_str else Ok zero) as [p|x];
    [|reflexivity].
  destruct (truediv _ p) as [sh|x]; reflexivity.
Qed.


End LoopFacts.

Section RunFacts.

Variable E : env.

(** Holdings processed to completion are skipped by the loop. *)
Lemma for_each_complete pre rest l w l1 w1 :
  complete E pre l w = Some (l1, w1) ->
  for_each E (pre ++ rest) l w = for_each E rest l1 w1.
Proof.
  revert l w. induction pre as [|item pre IH]; intros l w H; cbn [complete for_each app map] in H |- *.
  - now inversion H.
  - unfold bind at 1.
    destruct (loop_body E item l w) as [w' [[l'|l']|x]]; try discriminate.
    now apply IH.
Qed.

(** The loop stops at a holding on which the body breaks. *)
Lemma for_each_break item rest l w l' w' :
  loop_body E item l w = (w', Ok (Break l')) ->
  for_each E (item :: rest) l w = (w', Ok l').
Proof. intros H. cbn [for_each]. unfold bind. now rewrite H. Qed.

(** The loop body sends nothing and makes at most the lookup of its item. *)
Lemma loop_body_world item l w w' r :
  loop_body E item l w = (w', r) ->
  outbox w' = outbox w /\
  (lookups w' = lookups w \/ lookups w' = lookups w ++ [symbol_of item]).
Proof.
  destruct item as [| | | | |?|d];
    try (cbn; intros H; inversion H; subst; auto; fail).
  destruct (truthy (field d "symbol") && truthy (field d "allocation")) eqn:Hv.
  - rewrite (loop_body_valid E d l w Hv).
    destruct (rbind (strip (field d "allocation")) float_of_string) as [a|x] eqn:Ha.
    + destruct (fetch E (List.length (lookups w)) (field d "symbol"))
        as [api|x] eqn:Hf.
      * rewrite (try_block_lookup_ok E _ _ l w a api Ha Hf). cbn zeta.
        destruct (rbind (price_field api) _) as [p|x].
        -- destruct (truediv _ p); intros H; inversion H; subst; cbn; auto.
        -- intros H; inversion H; subst; cbn; auto.
      * rewrite (try_block_lookup_error E _ _ l w a x Ha Hf).
        intros H; inversion H; subst; cbn; auto.
    + rewrite (try_block_parse_error E _ _ l w x Ha).
      intros H; inversion H; subst; auto.
  - rewrite (loop_body_invalid E d l w Hv).
    intros H; inversion H; subst; auto.
Qed.

Lemma for_each_outbox items l w w' r :
  for_each E items l w = (w', r) -> outbox w' = outbox w.
Proof.
  revert l w. induction items as [|item items IH]; intros l w H; cbn [complete for_each] in H.
  - now inversion H.
  - unfold bind in H.
    destruct (loop_body E item l w) as [w1 [[l1|l1]|x]] eqn:Hb;
      destruct (loop_body_world _ _ _ _ _ Hb) as [Ho _].
    + rewrite <- Ho. now apply (IH l1).
    + inversion H; now subst.
    + inversion H; now subst.
Qed.

(** A turn of the loop that reaches its end made exactly the lookup of its
    holding. *)
Lemma loop_body_next_lookups item l w w' l' :
  loop_body E item l w = (w', Ok (Next l')) ->
  lookups w' = lookups w ++ [symbol_of item].
Proof.
  destruct item as [| | | | |?|d]; try (cbn; discriminate).
  destruct (truthy (field d "symbol") && truthy (field d "allocation")) eqn:Hv.
  - rewrite (loop_body_valid E d l w Hv).
    destruct (rbind (strip (field d "allocation")) float_of_string) as [a|x] eqn:Ha.
    + destruct (fetch E (List.length (lookups w)) (field d "symbol"))
        as [api|x] eqn:Hf.
      * rewrite (try_block_lookup_ok E _ _ l w a api Ha Hf). cbn zeta.
        destruct (rbind (price_field api) _) as [p|x].
        -- destruct (truediv _ p); intros H; inversion H; subst; cbn; auto.
        -- discriminate.
      * rewrite (try_block_lookup_error E _ _ l w a x Ha Hf). discriminate.
    + rewrite (try_block_parse_error E _ _ l w x Ha). discriminate.
  - rewrite (loop_body_invalid E d l w Hv). discriminate.
Qed.

(** Holdings processed to completion: one lookup each, in order. *)
Lemma complete_lookups items l w l' w' :
  complete E items l w = Some (l', w') ->
  lookups w' = lookups w ++ map symbol_of items.
Proof.
  revert l w. induction items as [|item items IH]; intros l w H; cbn [complete for_each app map] in H |- *.
  - inversion H; subst. now rewrite app_nil_r.
  - destruct (loop_body E item l w) as [w1 [[l1|l1]|x]] eqn:Hb; try discriminate.
    rewrite (IH _ _ H), (loop_body_next_lookups _ _ _ _ _ Hb), <- app_assoc.
    reflexivity.
Qed.

(** The status after the loop. *)
Lemma loop_body_status item l w w' f :
  loop_body E item l w = (w', Ok f) ->
  match f with
  | Next l' => status l' = status l
  | Break l' => status l' = "failure"
  end.
Proof.
  destruct item as [| | | | |?|d]; try (cbn; discriminate).
  destruct (truthy (field d "symbol") && truthy (field d "allocation")) eqn:Hv.
  - rewrite (loop_body_valid E d l w Hv).
    destruct (try_block E _ _ l w) as [w1 [l1|x]] eqn:Ht.
    + intros H; inversion H; subst.
      unfold try_block in Ht. unfold_m.
      repeat match type of Ht with
             | context [match ?r with Ok _ => _ | Raise _ => _ end] =>
                 destruct r; try discriminate
             | context [let (_, _) := ?p in _] => destruct p
             end.
      inversion Ht; subst. reflexivity.
    + intros H; inversion H; subst. reflexivity.
  - rewrite (loop_body_invalid E d l w Hv).
    intros H; inversion H; subst. reflexivity.
Qed.

Lemma for_each_status items l w w' l' :
  for_each E items l w = (w', Ok l') ->
  status l' = status l \/ status l' = "failure".
Proof.
  revert l w. induction items as [|item items IH]; intros l w H; cbn [complete for_each] in H.
  - inversion H; subst. now left.
  - unfold bind in H.
    destruct (loop_body E item l w) as [w1 [[l1|l1]|x]] eqn:Hb; try discriminate;
      pose proof (loop_body_status _ _ _ _ _ Hb) as Hs; cbn in Hs.
    + rewrite <- Hs. now apply (IH l1 w1).
    + inversion H; subst. now right.
Qed.

(** A loop that ends with the status it started with made no [break]. *)
Lemma for_each_success items l w w' l' :
  for_each E items l w = (w', Ok l') ->
  status l = "success" -> status l' = "success" ->
  complete E items l w = Some (l', w').
Proof.
  revert l w. induction items as [|item items IH]; intros l w H Hl Hl'; cbn [complete for_each] in H |- *.
  - now inversion H.
  - unfold bind in H.
    destruct (loop_body E item l w) as [w1 [[l1|l1]|x]] eqn:Hb; try discriminate;
      pose proof (loop_body_status _ _ _ _ _ Hb) as Hs; cbn in Hs.
    + apply IH; auto. congruence.
    + inversion H; subst. congruence.
Qed.

(** What a turn of the loop that reaches its end has done. *)
Lemma loop_body_next_inv item l w w' l' :
  loop_body E item l w = (w', Ok (Next l')) ->
  exists d a current_price,
    item = JDict d /\
    allocation_percent_of item = Ok a /\
    PrimFloat.eqb current_price zero = false /\
    status l' = status l /\
    total_value l' = add (total_value l) (mul (div a 100) total_capital) /\
    detailed_holdings l' =
      detailed_holdings l ++
        [VDict [("symbol", VJson (field d "symbol"));
                ("allocation_percent", VFloat a);
                ("capital_allocated",
                  VFloat (round2 (mul (div a 100) total_capital)));
                ("estimated_shares",
                  VFloat (round2 (div (mul (div a 100) total_capital)
                                    current_price)));
                ("current_price", VFloat current_price)]].
Proof.
  destruct item as [| | | | |?|d]; try (cbn; discriminate).
  destruct (truthy (field d "symbol") && truthy (field d "allocation")) eqn:Hv.
  - rewrite (loop_body_valid E d l w Hv).
    destruct (rbind (strip (field d "allocation")) float_of_string) as [a|x] eqn:Ha.
    + destruct (fetch E (List.length (lookups w)) (field d "symbol"))
        as [api|x] eqn:Hf.
      * rewrite (try_block_lookup_ok E _ _ l w a api Ha Hf). cbn zeta.
        destruct (rbind (price_field api) _) as [p|x]; [|discriminate].
        unfold truediv. destruct (PrimFloat.eqb p zero) eqn:Hz; [discriminate|].
        intros H; inversion H; subst. exists d, a, p. cbn [status total_value detailed_holdings].
        repeat split; auto.
      * rewrite (try_block_lookup_error E _ _ l w a x Ha Hf). discriminate.
    + rewrite (try_block_parse_error E _ _ l w x Ha). discriminate.
  - rewrite (loop_body_invalid E d l w Hv). discriminate.
Qed.

(** A run on a decodable request whose fields are all there and whose
    intent is the recognised one: the reply follows the loop. *)
Lemma run_analyze data f items l w :
  extract data = Ok f ->
  eq_str (intent f) "analyze_portfolio" = true ->
  iter (portfolio_items f) = Ok items ->
  accepts E (reply_to f) = true ->
  for_each E items locals0 world0 = (w, Ok l) ->
  run E (Some (Ok data)) world0 =
    World (lookups w)
      [reply E f (status l)
         (if String.eqb (status l) "success" then summary l else None_)
         (error_info l)].
Proof.
  intros Hx Hi Hit Ha Hl.
  pose proof (for_each_outbox _ _ _ _ _ Hl) as Ho. cbn in Ho.
  unfold run, handle, process, send. unfold_m.
  rewrite Hx, Hi, Hit, Hl. cbn [fst to reply]. rewrite Ha, Ho. reflexivity.
Qed.

End RunFacts.

Section ReplyFacts.

Variable E : env.

(** On an object the loop body raises nothing. *)
Lemma loop_body_dict d l w :
  exists w' f, loop_body E (JDict d) l w = (w', Ok f).
Proof.
  destruct (truthy (field d "symbol") && truthy (field d "allocation")) eqn:Hv.
  - rewrite (loop_body_valid E d l w Hv).
    destruct (try_block E _ _ l w) as [w' [l'|x]]; eauto.
  - rewrite (loop_body_invalid E d l w Hv). eauto.
Qed.

Lemma for_each_dicts items l w :
  forallb is_dict items = true ->
  exists w' l', for_each E items l w = (w', Ok l').
Proof.
  revert l w. induction items as [|item items IH]; intros l w H;
    cbn [for_each forallb] in H |- *.
  - unfold ret. eauto.
  - apply andb_true_iff in H as [Hd Hr].
    destruct item as [| | | | |?|d]; try discriminate.
    destruct (loop_body_dict d l w) as (w1 & f & Hb).
    unfold bind. rewrite Hb. destruct f as [l1|l1]; [now apply IH|].
    unfold ret. eauto.
Qed.

(** The three values [process] hands to the reply. *)
Lemma process_spec f w w' st rd ei :
  process E f w = (w', Ok (st, rd, ei)) ->
  w = world0 ->
  outbox w' = [] /\ (st = "success" \/ st = "failure").
Proof.
  unfold process. intros H ->.
  destruct (eq_str (intent f) "analyze_portfolio").
  - unfold_m. destruct (iter (portfolio_items f)) as [items|x]; [|discriminate].
    destruct (for_each E items locals0 world0) as [w1 [l1|x]] eqn:Hl;
      [|discriminate].
    inversion H; subst.
    split; [apply (for_each_outbox E _ _ _ _ _ Hl)|].
    apply (for_each_status E _ _ _ _ _ Hl).
  - unfold ret in H. inversion H; subst. auto.
Qed.

(** A run sends nothing or one reply, built from a status that is "success"
    or "failure". *)
Lemma run_outbox msg :
  outbox (run E msg world0) = [] \/
  exists f st rd ei,
    (st = "success" \/ st = "failure") /\
    outbox (run E msg world0) = [reply E f st rd ei].
Proof.
  destruct msg as [[data|x]|]; [|now left|now left].
  unfold run, handle, send. unfold_m.
  destruct (extract data) as [f|x]; [|now left].
  destruct (process E f world0) as [w1 [[[st rd] ei]|x]] eqn:Hp.
  - destruct (process_spec f _ _ _ _ _ Hp eq_refl) as [Ho Hs].
    destruct (accepts E (to (reply E f st rd ei))).
    + right. exists f, st, rd, ei. split; [exact Hs|]. cbn. now rewrite Ho.
    + left. exact Ho.
  - left. cbn.
    unfold process in Hp. destruct (eq_str (intent f) "analyze_portfolio").
    + unfold_m. destruct (iter (portfolio_items f)) as [items|y].
      * destruct (for_each E items locals0 world0) as [w2 [l2|y]] eqn:Hl;
          inversion Hp; subst.
        apply (for_each_outbox E _ _ _ _ _ Hl).
      * inversion Hp; subst. reflexivity.
    + discriminate.
Qed.

(** An answerable request is answered. *)
Lemma run_answerable data :
  answerable E data = true ->
  exists m, outbox (run E (Some (Ok data)) world0) = [m].
Proof.
  unfold answerable. intros H.
  destruct (extract data) as [f|x] eqn:Hx; [|discriminate].
  apply andb_true_iff in H as [Ha Hh].
  assert (Hp : exists w st rd ei,
             process E f world0 = (w, Ok (st, rd, ei)) /\ outbox w = []).
  { unfold process. destruct (eq_str (intent f) "analyze_portfolio").
    - destruct (iter (portfolio_items f)) as [items|x]; [|discriminate].
      destruct (for_each_dicts items locals0 world0 Hh) as (w1 & l1 & Hl).
      unfold_m. rewrite Hl. do 4 eexists. split; [reflexivity|].
      apply (for_each_outbox E _ _ _ _ _ Hl).
    - unfold ret. do 4 eexists. split; reflexivity. }
  destruct Hp as (w & st & rd & ei & Hp & Ho).
  unfold run, handle, send. unfold_m. rewrite Hx, Hp. cbn [to reply].
  rewrite Ha, Ho. cbn. eauto.
Qed.

End ReplyFacts.

Section Replay.

Variables E1 E2 : env.
Hypothesis prices : same_prices E1 E2.
Hypothesis addresses : forall v, accepts E1 v = accepts E2 v.

Lemma try_block_replay symbol allocation_str l w :
  try_block E1 symbol allocation_str l w = try_block E2 symbol allocation_str l w.
Proof.
  destruct (rbind (strip allocation_str) float_of_string) as [a|x] eqn:Ha.
  - pose proof (prices (List.length (lookups w)) symbol) as Hp.
    destruct (fetch E1 (List.length (lookups w)) symbol) as [api1|x1] eqn:H1;
      destruct (fetch E2 (List.length (lookups w)) symbol) as [api2|x2] eqn:H2;
      cbn [rbind] in Hp.
    + rewrite (try_block_lookup_ok E1 _ _ l w a api1 Ha H1),
        (try_block_lookup_ok E2 _ _ l w a api2 Ha H2), Hp. reflexivity.
    + rewrite (try_block_lookup_ok E1 _ _ l w a api1 Ha H1),
        (try_block_lookup_error E2 _ _ l w a x2 Ha H2), Hp. reflexivity.
    + rewrite (try_block_lookup_error E1 _ _ l w a x1 Ha H1),
        (try_block_lookup_ok E2 _ _ l w a api2 Ha H2), <- Hp. reflexivity.
    + rewrite (try_block_lookup_error E1 _ _ l w a x1 Ha H1),
        (try_block_lookup_error E2 _ _ l w a x2 Ha H2). congruence.
  - now rewrite !(try_block_parse_error _ _ _ l w x Ha).
Qed.

Lemma loop_body_replay item l w :
  loop_body E1 item l w = loop_body E2 item l w.
Proof.
  unfold loop_body. unfold_m.
  destruct (get item "symbol" JNull) as [symbol|x]; [|reflexivity].
  destruct (get item "allocation" JNull) as [allocation_str|x]; [|reflexivity].
  destruct (negb (truthy symbol) || negb (truthy allocation_str)); [reflexivity|].
  now rewrite try_block_replay.
Qed.

Lemma for_each_replay items l w :
  for_each E1 items l w = for_each E2 items l w.
Proof.
  revert l w. induction items as [|item items IH]; intros l w; cbn [for_each].
  - reflexivity.
  - unfold bind. rewrite loop_body_replay.
    destruct (loop_body E2 item l w) as [w1 [[l1|l1]|x]]; auto.
Qed.

Lemma process_replay f w : process E1 f w = process E2 f w.
Proof.
  unfold process. destruct (eq_str (intent f) "analyze_portfolio"); [|reflexivity].
  unfold_m. destruct (iter (portfolio_items f)) as [items|x]; [|reflexivity].
  now rewrite for_each_replay.
Qed.

Lemma reply_replay f st rd ei :
  without_timestamp (reply E1 f st rd ei) = without_timestamp (reply E2 f st rd ei).
Proof.
  unfold without_timestamp, reply, reply_mcp.
  destruct (String.eqb st "success"); reflexivity.
Qed.

Lemma run_replay msg :
  lookups (run E1 msg world0) = lookups (run E2 msg world0) /\
  map without_timestamp (outbox (run E1 msg world0)) =
  map without_timestamp (outbox (run E2 msg world0)).
Proof.
  destruct msg as [[data|x]|]; [|split; reflexivity|split; reflexivity].
  unfold run, handle, send. unfold_m.
  destruct (extract data) as [f|x]; [|split; reflexivity].
  rewrite process_replay.
  destruct (process E2 f world0) as [w1 [[[st rd] ei]|x]]; [|split; reflexivity].
  cbn [to reply]. rewrite addresses.
  destruct (accepts E2 (reply_to f)); [|split; reflexivity].
  cbn [fst lookups outbox]. split; [reflexivity|].
  rewrite !map_app. cbn [map]. now rewrite reply_replay.
Qed.

End Replay.

Section FloatFacts.

Local Open Scope Q_scope.

Lemma pow2_pos e : 0 < pow2 e.
Proof. unfold pow2. apply Qpower_0_lt. reflexivity. Qed.

Lemma pow2_add a b : pow2 (a + b) == pow2 a * pow2 b.
Proof. unfold pow2. apply Qpower_plus. discriminate. Qed.

Lemma pow2_succ e : pow2 (e + 1) == 2 * pow2 e.
Proof. rewrite pow2_add. change (pow2 1) with 2. ring. Qed.

Lemma pow2_nonneg (n : Z) : (0 <= n)%Z -> pow2 n == inject_Z (2 ^ n).
Proof.
  intros H. unfold pow2. rewrite Zpower_Qpower by exact H. reflexivity.
Qed.

Lemma pow2_le a b : (a <= b)%Z -> pow2 a <= pow2 b.
Proof.
  intros H. replace b with (a + (b - a))%Z by lia.
  rewrite pow2_add. rewrite (pow2_nonneg (b - a)) by lia.
  assert (1 <= inject_Z (2 ^ (b - a))).
  { change 1 with (inject_Z 1). rewrite <- Zle_Qle.
    assert (0 < 2 ^ (b - a))%Z by (apply Z.pow_pos_nonneg; lia). lia. }
  pose proof (pow2_pos a). nra.
Qed.

Lemma pow2_lt a b : (a < b)%Z -> pow2 a < pow2 b.
Proof.
  intros H. apply Qlt_le_trans with (pow2 (a + 1)).
  - rewrite pow2_succ. pose proof (pow2_pos a). lra.
  - apply pow2_le. lia.
Qed.

Lemma pow2_lt_inv a b : pow2 a < pow2 b -> (a < b)%Z.
Proof.
  intros H. destruct (Z_lt_le_dec a b) as [|Hle]; [assumption|].
  apply pow2_le in Hle. lra.
Qed.

Lemma pow2_le_inv a b : pow2 a <= pow2 b -> (a <= b)%Z.
Proof.
  intros H. destruct (Z_le_gt_dec a b) as [|Hgt]; [assumption|].
  assert (b < a)%Z as Hlt by lia. apply pow2_lt in Hlt. lra.
Qed.

(** Digits. *)
Lemma digits2_size p : digits2_pos p = Pos.size p.
Proof. induction p; cbn; congruence. Qed.

Lemma digits_bounds p :
  (2 ^ (Zpos (digits2_pos p) - 1) <= Zpos p < 2 ^ Zpos (digits2_pos p))%Z.
Proof.
  rewrite digits2_size.
  pose proof (Pos.size_gt p) as Hgt. pose proof (Pos.size_le p) as Hle.
  split.
  - assert (2 ^ Zpos (Pos.size p) <= 2 * Zpos p)%Z as H.
    { change (2 * Zpos p)%Z with (Zpos p~0).
      rewrite <- Pos2Z.inj_pow. apply Pos2Z.pos_le_pos. exact Hle. }
    replace (Zpos (Pos.size p)) with (Z.succ (Zpos (Pos.size p) - 1)) in H by lia.
    rewrite Z.pow_succ_r in H by lia. lia.
  - rewrite <- Pos2Z.inj_pow. apply Pos2Z.pos_lt_pos. exact Hgt.
Qed.

Lemma Zdigits2_bounds m :
  (0 < m)%Z -> (2 ^ (Zdigits2 m - 1) <= m < 2 ^ Zdigits2 m)%Z.
Proof. destruct m; try lia. intros _. apply digits_bounds. Qed.

Lemma Zdigits2_pos m : (0 < m)%Z -> (1 <= Zdigits2 m)%Z.
Proof. destruct m; cbn; lia. Qed.

(** A bound on a positive integer gives a bound on its digits. *)
Lemma Zdigits2_le m n :
  (0 < m)%Z -> (0 <= n)%Z -> (m < 2 ^ n)%Z -> (Zdigits2 m <= n)%Z.
Proof.
  intros Hm Hn H. destruct (Zdigits2_bounds m Hm) as [Hl _].
  destruct (Z_le_gt_dec (Zdigits2 m) n) as [|Hgt]; [assumption|].
  assert (2 ^ n <= 2 ^ (Zdigits2 m - 1))%Z by (apply Z.pow_le_mono_r; lia). lia.
Qed.

Lemma Zdigits2_ge m n :
  (0 < m)%Z -> (2 ^ (n - 1) <= m)%Z -> (n <= Zdigits2 m)%Z.
Proof.
  intros Hm H. destruct (Zdigits2_bounds m Hm) as [_ Hu].
  pose proof (Zdigits2_pos m Hm).
  destruct (Z_le_gt_dec n (Zdigits2 m)) as [|Hgt]; [assumption|].
  assert (2 ^ Zdigits2 m <= 2 ^ (n - 1))%Z by (apply Z.pow_le_mono_r; lia). lia.
Qed.

(** Shifting right keeps the location. *)
Lemma loc_of_shr_record_eq m r s :
  loc_of_shr_record (Build_shr_record m r s) = record_loc r s.
Proof. destruct r, s; reflexivity. Qed.

Lemma shr_1_eq m r s :
  (0 <= m)%Z ->
  shr_1 (Build_shr_record m r s) =
  Build_shr_record (Z.div2 m) (Z.odd m) (r || s).
Proof. destruct m as [|[p|p|]|]; try lia; reflexivity. Qed.

Lemma located_half m e r s x :
  (0 <= m)%Z ->
  located m e (record_loc r s) x ->
  located (Z.div2 m) (e + 1) (record_loc (Z.odd m) (r || s)) x.
Proof.
  intros Hm H.
  pose proof (pow2_pos e) as HP.
  pose proof (Z.div2_odd m) as Hd.
  assert (Hq : inject_Z m == 2 * inject_Z (Z.div2 m) + inject_Z (Z.b2z (Z.odd m))).
  { rewrite Hd at 1. rewrite inject_Z_plus, inject_Z_mult. reflexivity. }
  set (h := inject_Z (Z.div2 m)) in *. set (M := inject_Z m) in *.
  set (P := pow2 e) in *.
  destruct (Z.odd m); cbn [Z.b2z] in Hq;
    destruct r, s; cbn [record_loc loc_of_shr_record orb located] in *;
    fold M in H; fold P in H; fold h;
    rewrite ?pow2_succ; fold P;
    change (inject_Z 1) with 1 in Hq; change (inject_Z 0) with 0 in Hq;
    try (match type of H with _ /\ _ => destruct H as [H1 H2] end);
    try split; nra.
Qed.

Lemma shr_1_located mrs e x :
  (0 <= shr_m mrs)%Z ->
  located (shr_m mrs) e (loc_of_shr_record mrs) x ->
  (0 <= shr_m (shr_1 mrs))%Z /\
  located (shr_m (shr_1 mrs)) (e + 1) (loc_of_shr_record (shr_1 mrs)) x.
Proof.
  destruct mrs as [m r s]. cbn [shr_m]. intros Hm H.
  rewrite shr_1_eq by exact Hm. cbn [shr_m].
  rewrite loc_of_shr_record_eq in *. split.
  - apply Z.div2_nonneg. exact Hm.
  - apply located_half; assumption.
Qed.

Lemma located_exp m e e' l x : e = e' -> located m e l x -> located m e' l x.
Proof. now intros ->. Qed.

Lemma iter_shr_located p : forall mrs e x,
  (0 <= shr_m mrs)%Z ->
  located (shr_m mrs) e (loc_of_shr_record mrs) x ->
  (0 <= shr_m (iter_pos shr_1 p mrs))%Z /\
  located (shr_m (iter_pos shr_1 p mrs)) (e + Zpos p)
    (loc_of_shr_record (iter_pos shr_1 p mrs)) x.
Proof.
  induction p as [p IH|p IH|]; intros mrs e x Hm H; cbn [iter_pos].
  - destruct (shr_1_located mrs e x Hm H) as [Hm1 H1].
    destruct (IH _ _ _ Hm1 H1) as [Hm2 H2].
    destruct (IH _ _ _ Hm2 H2) as [Hm3 H3].
    split; [exact Hm3|]. eapply located_exp; [|exact H3]. lia.
  - destruct (IH _ _ _ Hm H) as [Hm2 H2].
    destruct (IH _ _ _ Hm2 H2) as [Hm3 H3].
    split; [exact Hm3|]. eapply located_exp; [|exact H3]. lia.
  - apply shr_1_located; assumption.
Qed.

Lemma record_of_loc m l :
  shr_m (shr_record_of_loc m l) = m /\
  loc_of_shr_record (shr_record_of_loc m l) = l.
Proof. destruct l as [|[]]; split; reflexivity. Qed.

(** [shr] by a non-negative amount. *)
Lemma shr_located mrs e n x :
  (0 <= n)%Z -> (0 <= shr_m mrs)%Z ->
  located (shr_m mrs) e (loc_of_shr_record mrs) x ->
  snd (shr mrs e n) = (e + n)%Z /\
  (0 <= shr_m (fst (shr mrs e n)))%Z /\
  located (shr_m (fst (shr mrs e n))) (e + n)
    (loc_of_shr_record (fst (shr mrs e n))) x.
Proof.
  intros Hn Hm H. destruct n as [|p|p]; [| |lia]; cbn [shr fst snd].
  - rewrite Z.add_0_r. auto.
  - split; [reflexivity|]. apply iter_shr_located; assumption.
Qed.

Lemma fexp_eq z : fexp prec emax z = Z.max (z - 53) (-1074).
Proof. reflexivity. Qed.

Lemma located_bounds m e l x :
  located m e l x ->
  inject_Z m * pow2 e <= x /\ x < (inject_Z m + 1) * pow2 e.
Proof.
  pose proof (pow2_pos e). destruct l as [|[]]; cbn [located]; intros; split; nra.
Qed.

Lemma round_located m e l x :
  located m e l x ->
  (round_nearest_even m l = m \/ round_nearest_even m l = m + 1)%Z /\
  Qabs (inject_Z (round_nearest_even m l) * pow2 e - x) <= pow2 e * (1 # 2).
Proof.
  intros H. pose proof (pow2_pos e) as HP.
  assert (Hs : inject_Z (m + 1) == inject_Z m + 1).
  { rewrite inject_Z_plus. reflexivity. }
  set (P := pow2 e) in *. set (M := inject_Z m) in *.
  destruct l as [|[]]; cbn [located round_nearest_even] in *; fold P in H; fold M in H.
  - split; [auto|]. fold M. apply Qabs_Qle_condition. split; nra.
  - destruct (Z.even m); (split; [auto|]); fold M; try rewrite Hs;
      apply Qabs_Qle_condition; split; nra.
  - split; [auto|]. fold M. apply Qabs_Qle_condition. split; nra.
  - split; [auto|]. rewrite Hs. apply Qabs_Qle_condition. split; nra.
Qed.

Lemma shr_nonpos mrs e n : (n <= 0)%Z -> shr mrs e n = (mrs, e).
Proof. destruct n; try lia; reflexivity. Qed.

Lemma inject_Z_pow2 n : (0 <= n)%Z -> inject_Z (2 ^ n) == pow2 n.
Proof. intros H. symmetry. apply pow2_nonneg. exact H. Qed.

(** The integer just above a mantissa has no more digits. *)
Lemma succ_le_pow_digits m : (0 <= m)%Z -> (m + 1 <= 2 ^ Zdigits2 m)%Z.
Proof.
  intros H. destruct (Z.eq_dec m 0) as [->|]; [cbn; lia|].
  destruct (Zdigits2_bounds m); lia.
Qed.

Lemma Zdigits2_nonneg m : (0 <= Zdigits2 m)%Z.
Proof. destruct m; cbn; lia. Qed.

(** The rounding of [binary_round_aux]: an exact value [x] located after
    [mx * 2^ex], with at least the digits of the format on the left, is
    rounded to a float within half a unit in the last place. *)
Lemma binary_round_aux_correct sx mx ex lx x :
  (0 <= mx)%Z -> located mx ex lx x ->
  (ex <= fexp prec emax (Zdigits2 mx + ex))%Z ->
  (Zdigits2 mx + ex <= 1023)%Z ->
  let r := binary_round_aux prec emax sx mx ex lx in
  (r = S754_zero sx \/ exists m e, r = S754_finite sx m e) /\
  Qabs (SFmag r - x) <= pow2 (-53) * x + pow2 (-1075).
Proof.
  intros Hmx Hloc Hex Hov r. subst r.
  pose proof (Zdigits2_nonneg mx) as Hd0.
  set (d := Zdigits2 mx) in *.
  rewrite fexp_eq in Hex.
  unfold binary_round_aux, shr_fexp. fold d. rewrite fexp_eq.
  set (e1 := Z.max (d + ex - 53) (-1074)) in *.
  destruct (record_of_loc mx lx) as [Rm Rl].
  destruct (shr_located (shr_record_of_loc mx lx) ex (e1 - ex) x)
    as (He & Hm1 & Hl1); [lia | rewrite Rm; exact Hmx | rewrite Rm, Rl; exact Hloc |].
  destruct (shr (shr_record_of_loc mx lx) ex (e1 - ex)) as [mrs1 e1'].
  cbn [fst snd] in He, Hm1, Hl1. subst e1'.
  replace (ex + (e1 - ex))%Z with e1 in * by lia.
  set (m1 := shr_m mrs1) in *. set (l1 := loc_of_shr_record mrs1) in *.
  destruct (round_located m1 e1 l1 x Hl1) as [Hr Herr].
  destruct (located_bounds _ _ _ _ Hl1) as [Hlo Hhi].
  destruct (located_bounds _ _ _ _ Hloc) as [Hxlo Hxhi].
  set (m2 := round_nearest_even m1 l1) in *.
  pose proof (pow2_pos e1) as HP1. pose proof (pow2_pos ex) as HPx.
  (* the shifted mantissa has at most 53 digits *)
  assert (Hm1b : (m1 < 2 ^ 53)%Z).
  { rewrite Zlt_Qlt. rewrite inject_Z_pow2 by lia.
    assert (Hs : inject_Z mx + 1 <= pow2 d).
    { rewrite <- inject_Z_pow2 by lia.
      change 1 with (inject_Z 1). rewrite <- inject_Z_plus, <- Zle_Qle.
      apply succ_le_pow_digits. exact Hmx. }
    assert (Hp : pow2 d * pow2 ex <= pow2 53 * pow2 e1).
    { rewrite <- !pow2_add. apply pow2_le. lia. }
    pose proof (pow2_pos 53).
    assert (inject_Z m1 * pow2 e1 < pow2 53 * pow2 e1) by nra.
    nra. }
  (* half a unit in the last place, against the value *)
  assert (Hulp : pow2 e1 <= 2 * (pow2 (-53) * x + pow2 (-1075))).
  { pose proof (pow2_pos (-53)). pose proof (pow2_pos (-1075)).
    assert (0 <= x) by (assert (0 <= inject_Z mx) by
      (change 0 with (inject_Z 0); rewrite <- Zle_Qle; exact Hmx); nra).
    destruct (Z.eq_dec e1 (-1074)) as [E|E].
    - rewrite E. change (-1074)%Z with (-1075 + 1)%Z. rewrite pow2_succ. nra.
    - assert (Hmx0 : (0 < mx)%Z).
      { destruct (Z.eq_dec mx 0) as [Z0|]; [|lia].
        subst mx. subst d. cbn in Hex, e1. lia. }
      destruct (Zdigits2_bounds mx Hmx0) as [Hdl _]. fold d in Hdl.
      assert (He1 : e1 = (d - 1 + ex + (-53) + 1)%Z) by lia.
      rewrite He1, pow2_succ, !pow2_add.
      assert (pow2 (d - 1) <= inject_Z mx).
      { rewrite <- inject_Z_pow2 by (pose proof (Zdigits2_pos mx Hmx0); lia).
        rewrite <- Zle_Qle. exact Hdl. }
      assert (Hx : pow2 (d - 1) * pow2 ex <= x) by nra.
      set (A := pow2 (d - 1) * pow2 ex) in *. nra. }
  assert (Hfin : Qabs (inject_Z m2 * pow2 e1 - x) <=
                 pow2 (-53) * x + pow2 (-1075)) by lra.
  assert (Hm2 : (0 <= m2 <= 2 ^ 53)%Z) by lia.
  destruct (Z.eq_dec m2 (2 ^ 53)) as [Htop|Hlow].
  - (* the carry: one more shift *)
    rewrite Htop in *.
    destruct (record_of_loc (2 ^ 53) loc_Exact) as [Rm2 _].
    replace (fexp prec emax (Zdigits2 (2 ^ 53) + e1) - e1)%Z with 1%Z
      by (rewrite fexp_eq; change (Zdigits2 (2 ^ 53)) with 54%Z; lia).
    cbn [shr_record_of_loc shr iter_pos]. change (2 ^ 53)%Z with 9007199254740992%Z.
    cbn [shr_1 shr_m orb].
    replace (e1 + 1 <=? emax - prec)%Z with true
      by (symmetry; apply Z.leb_le; change (emax - prec)%Z with 971%Z; lia).
    split; [right; eauto|]. cbn [SFmag].
    rewrite pow2_succ.
    change (inject_Z 9007199254740992) with (2 * inject_Z 4503599627370496) in Hfin.
    assert (Heq : inject_Z 4503599627370496 * (2 * pow2 e1) - x ==
                  inject_Z 9007199254740992 * pow2 e1 - x).
    { assert (E : inject_Z 9007199254740992 == 2 * inject_Z 4503599627370496)
        by reflexivity.
      rewrite E. ring. }
    rewrite Heq. exact Hfin.
  - (* no carry: the mantissa fits *)
    assert (Hn : (fexp prec emax (Zdigits2 m2 + e1) - e1 <= 0)%Z).
    { rewrite fexp_eq. destruct (Z.eq_dec m2 0) as [->|]; [cbn; lia|].
      assert (Zdigits2 m2 <= 53)%Z by (apply Zdigits2_le; lia). lia. }
    rewrite shr_nonpos by exact Hn.
    destruct (record_of_loc m2 loc_Exact) as [Rm2 _]. rewrite Rm2.
    destruct m2 as [|p|p]; [| |lia].
    + split; [left; reflexivity|]. cbn [SFmag].
      assert (Heq : 0 - x == inject_Z 0 * pow2 e1 - x) by ring.
      rewrite Heq. exact Hfin.
    + replace (e1 <=? emax - prec)%Z with true
        by (symmetry; apply Z.leb_le; change (emax - prec)%Z with 971%Z; lia).
      split; [right; eauto|]. exact Hfin.
Qed.

(** Aligning to a smaller exponent. *)
Lemma iter_xO m d : Zpos (Pos.iter xO m d) = (Zpos m * 2 ^ Zpos d)%Z.
Proof.
  induction d as [|d IH] using Pos.peano_ind.
  - cbn. lia.
  - rewrite Pos.iter_succ, Pos2Z.inj_xO, IH, Pos2Z.inj_succ, Z.pow_succ_r by lia.
    ring.
Qed.

Lemma digits_iter_xO m d :
  Zpos (digits2_pos (Pos.iter xO m d)) = (Zpos (digits2_pos m) + Zpos d)%Z.
Proof.
  induction d as [|d IH] using Pos.peano_ind.
  - cbn. lia.
  - rewrite Pos.iter_succ. cbn [digits2_pos]. rewrite Pos2Z.inj_succ, IH. lia.
Qed.

Lemma shl_align_correct mx ex e' :
  snd (shl_align mx ex e') = Z.min ex e' /\
  inject_Z (Zpos (fst (shl_align mx ex e'))) * pow2 (Z.min ex e') ==
    inject_Z (Zpos mx) * pow2 ex /\
  (Zpos (digits2_pos (fst (shl_align mx ex e'))) + Z.min ex e' =
   Zpos (digits2_pos mx) + ex)%Z.
Proof.
  unfold shl_align. destruct (e' - ex)%Z as [|d|d] eqn:E; cbn [fst snd].
  - replace (Z.min ex e') with ex by lia. repeat split; reflexivity.
  - replace (Z.min ex e') with ex by lia. repeat split; reflexivity.
  - replace (Z.min ex e') with e' by lia. split; [reflexivity|]. split.
    + assert (Hp : pow2 ex == pow2 (Zpos d) * pow2 e').
      { rewrite <- pow2_add. replace (Zpos d + e')%Z with ex by lia. reflexivity. }
      rewrite iter_xO, inject_Z_mult, inject_Z_pow2, Hp by lia. ring.
    + rewrite digits_iter_xO. lia.
Qed.

(** A value below [2^n]: the digits of its mantissa. *)
Lemma value_digits m e n :
  inject_Z (Zpos m) * pow2 e < pow2 n -> (Zpos (digits2_pos m) + e <= n)%Z.
Proof.
  intros H. destruct (digits_bounds m) as [Hl _].
  set (d := Zpos (digits2_pos m)) in *.
  assert (Hq : pow2 (d - 1) <= inject_Z (Zpos m)).
  { rewrite <- inject_Z_pow2 by lia. rewrite <- Zle_Qle. exact Hl. }
  pose proof (pow2_pos e).
  assert (pow2 (d - 1 + e) < pow2 n) by (rewrite pow2_add; nra).
  apply pow2_lt_inv in H1. lia.
Qed.

Lemma binary_round_correct sx mx ex :
  inject_Z (Zpos mx) * pow2 ex < pow2 1023 ->
  let r := binary_round prec emax sx mx ex in
  (r = S754_zero sx \/ exists m e, r = S754_finite sx m e) /\
  Qabs (SFmag r - inject_Z (Zpos mx) * pow2 ex) <=
    pow2 (-53) * (inject_Z (Zpos mx) * pow2 ex) + pow2 (-1075).
Proof.
  intros Hb r. subst r. unfold binary_round.
  pose proof (value_digits _ _ _ Hb) as Hd.
  set (t := fexp prec emax (Zpos (digits2_pos mx) + ex)).
  destruct (shl_align_correct mx ex t) as (He & Hv & Hdig).
  destruct (shl_align mx ex t) as [mz ez]. cbn [fst snd] in *. subst ez.
  apply binary_round_aux_correct.
  - lia.
  - cbn [located]. symmetry. exact Hv.
  - cbn [Zdigits2]. rewrite Hdig. fold t. lia.
  - cbn [Zdigits2]. rewrite Hdig. exact Hd.
Qed.

Lemma SFmag_nonneg f : 0 <= SFmag f.
Proof.
  destruct f; cbn [SFmag]; try lra.
  pose proof (pow2_pos e).
  assert (0 < inject_Z (Zpos m)) by (change 0 with (inject_Z 0); now rewrite <- Zlt_Qlt).
  nra.
Qed.

Lemma Qabs_zero_le y : 0 <= y -> Qabs (0 - 0) <= y.
Proof. intros. apply Qabs_Qle_condition. split; lra. Qed.

Lemma Qabs_self_le x y : 0 <= y -> Qabs (x - x) <= y.
Proof. intros. apply Qabs_Qle_condition. split; lra. Qed.

Lemma half_ulp_nonneg x : 0 <= x -> 0 <= half_ulp x.
Proof.
  intros. unfold half_ulp. pose proof (pow2_pos (-53)).
  pose proof (pow2_pos (-1075)). nra.
Qed.

Lemma SFadd_correct a b :
  SFnonneg a = true -> SFnonneg b = true ->
  SFmag a + SFmag b < pow2 1023 ->
  SFnonneg (SFadd prec emax a b) = true /\
  Qabs (SFmag (SFadd prec emax a b) - (SFmag a + SFmag b)) <=
    half_ulp (SFmag a + SFmag b).
Proof.
  intros Ha Hb Hlt.
  pose proof (SFmag_nonneg a) as Na. pose proof (SFmag_nonneg b) as Nb.
  assert (Hh : 0 <= half_ulp (SFmag a + SFmag b))
    by (apply half_ulp_nonneg; lra).
  destruct a as [sa| | |sa ma ea], b as [sb| | |sb mb eb]; try discriminate.
  - destruct sa, sb; (split; [reflexivity|]); cbn [SFadd SFmag] in *;
      apply Qabs_Qle_condition; split; lra.
  - cbn [SFadd]. split; [exact Hb|]. cbn [SFmag] in *.
    apply Qabs_Qle_condition; split; lra.
  - cbn [SFadd]. split; [exact Ha|]. cbn [SFmag] in *.
    apply Qabs_Qle_condition; split; lra.
  - destruct sa, sb; try discriminate. cbn [SFadd cond_Zopp].
    set (ez := Z.min ea eb).
    destruct (shl_align_correct ma ea ez) as (_ & Hva & _).
    destruct (shl_align_correct mb eb ez) as (_ & Hvb & _).
    replace (Z.min ea ez) with ez in Hva by lia.
    replace (Z.min eb ez) with ez in Hvb by lia.
    set (m1 := fst (shl_align ma ea ez)) in *.
    set (m2 := fst (shl_align mb eb ez)) in *.
    change (Zpos m1 + Zpos m2)%Z with (Zpos (m1 + m2)).
    cbn [binary_normalize SFmag] in *.
    assert (Hv : inject_Z (Zpos (m1 + m2)) * pow2 ez ==
                 inject_Z (Zpos ma) * pow2 ea + inject_Z (Zpos mb) * pow2 eb).
    { rewrite Pos2Z.inj_add, inject_Z_plus, <- Hva, <- Hvb. ring. }
    destruct (binary_round_correct false (m1 + m2) ez) as [Hs He].
    { rewrite Hv. exact Hlt. }
    split.
    + destruct Hs as [->|(m & e & ->)]; reflexivity.
    + unfold half_ulp. rewrite <- Hv. exact He.
Qed.

Lemma valid_finite s m e :
  valid_binary (S754_finite s m e) = true ->
  (e = Z.max (Zpos (digits2_pos m) + e - 53) (-1074))%Z.
Proof.
  cbn [SpecFloat.valid_binary]. unfold bounded, canonical_mantissa.
  rewrite fexp_eq. intros H. apply andb_prop in H. destruct H as [H _].
  apply Z.eqb_eq in H. lia.
Qed.

Lemma digits_mul ma mb :
  (Zpos (digits2_pos ma) + Zpos (digits2_pos mb) - 1 <=
   Zpos (digits2_pos (ma * mb)))%Z.
Proof.
  destruct (digits_bounds ma) as [Ha _]. destruct (digits_bounds mb) as [Hb _].
  apply (Zdigits2_ge (Zpos (ma * mb))); [lia|].
  replace (Zpos (digits2_pos ma) + Zpos (digits2_pos mb) - 1 - 1)%Z
    with ((Zpos (digits2_pos ma) - 1) + (Zpos (digits2_pos mb) - 1))%Z by lia.
  rewrite Z.pow_add_r, Pos2Z.inj_mul by lia.
  apply Z.mul_le_mono_nonneg; try assumption; apply Z.pow_nonneg; lia.
Qed.

Lemma SFmul_correct a b :
  SFnonneg a = true -> SFnonneg b = true ->
  valid_binary a = true -> valid_binary b = true ->
  SFmag a * SFmag b < pow2 1023 ->
  SFnonneg (SFmul prec emax a b) = true /\
  Qabs (SFmag (SFmul prec emax a b) - SFmag a * SFmag b) <=
    half_ulp (SFmag a * SFmag b).
Proof.
  intros Ha Hb Va Vb Hlt.
  pose proof (SFmag_nonneg a) as Na. pose proof (SFmag_nonneg b) as Nb.
  assert (Hh : 0 <= half_ulp (SFmag a * SFmag b))
    by (apply half_ulp_nonneg; nra).
  destruct a as [sa| | |sa ma ea], b as [sb| | |sb mb eb]; try discriminate;
    try (split; [reflexivity|]; cbn [SFmul SFmag] in *;
         apply Qabs_Qle_condition; split; nra).
  destruct sa, sb; try discriminate. cbn [SFmul xorb].
  apply valid_finite in Va, Vb. pose proof (digits_mul ma mb) as Hd.
  pose proof (digits_bounds ma) as Hda. pose proof (digits_bounds mb) as Hdb.
  cbn [SFmag] in *.
  assert (Hv : inject_Z (Zpos (ma * mb)) * pow2 (ea + eb) ==
               inject_Z (Zpos ma) * pow2 ea * (inject_Z (Zpos mb) * pow2 eb)).
  { rewrite Pos2Z.inj_mul, inject_Z_mult, pow2_add. ring. }
  destruct (binary_round_aux_correct false (Zpos (ma * mb)) (ea + eb) loc_Exact
              (inject_Z (Zpos ma) * pow2 ea * (inject_Z (Zpos mb) * pow2 eb)))
    as [Hs He].
  - lia.
  - cbn [located]. symmetry. exact Hv.
  - rewrite fexp_eq. cbn [Zdigits2].
    assert (0 < Zpos (digits2_pos ma))%Z by lia.
    assert (0 < Zpos (digits2_pos mb))%Z by lia. lia.
  - cbn [Zdigits2]. apply value_digits. rewrite Hv. exact Hlt.
  - split; [|exact He].
    destruct Hs as [->|(m & e & ->)]; reflexivity.
Qed.

(** Division: the location of the remainder. *)
Lemma new_location_located mb q r e x :
  (0 <= r < mb)%Z ->
  x * inject_Z mb == (inject_Z q * inject_Z mb + inject_Z r) * pow2 e ->
  located q e (new_location mb r) x.
Proof.
  intros Hr Hx. pose proof (pow2_pos e) as HP.
  assert (HB : 0 < inject_Z mb)
    by (change 0 with (inject_Z 0); rewrite <- Zlt_Qlt; lia).
  assert (HR : 0 <= inject_Z r)
    by (change 0 with (inject_Z 0); rewrite <- Zle_Qle; lia).
  assert (Hlt : forall u v, (u < v)%Z -> inject_Z u < inject_Z v)
    by (intros; now rewrite <- Zlt_Qlt).
  assert (H2 : inject_Z (2 * r) == 2 * inject_Z r)
    by (rewrite inject_Z_mult; reflexivity).
  assert (H21 : inject_Z (2 * r + 1) == 2 * inject_Z r + 1)
    by (rewrite inject_Z_plus, inject_Z_mult; reflexivity).
  unfold new_location, new_location_even, new_location_odd.
  destruct (Z.eqb_spec r 0) as [Z|NZ].
  - subst r. change (inject_Z 0) with 0 in Hx.
    assert (located q e loc_Exact x).
    { cbn [located]. apply (Qmult_inj_r _ _ (inject_Z mb)); [lra|].
      rewrite Hx. ring. }
    destruct (Z.even mb); cbn; assumption.
  - assert (HR1 : 0 < inject_Z r)
      by (change 0 with (inject_Z 0); apply Hlt; lia).
    assert (HRB : inject_Z r < inject_Z mb) by (apply Hlt; lia).
    set (B := inject_Z mb) in *. set (R := inject_Z r) in *.
    set (Qq := inject_Z q) in *. set (P := pow2 e) in *.
    assert (Hc : forall c : comparison,
               match c with
               | Lt => 2 * R < B
               | Eq => 2 * R == B
               | Gt => B < 2 * R
               end -> located q e (loc_Inexact c) x).
    { intros [] Hc; cbn [located]; fold Qq; fold P.
      - apply (Qmult_inj_r _ _ B); [lra|]. nra.
      - split; apply (Qmult_lt_r _ _ B HB); nra.
      - split; apply (Qmult_lt_r _ _ B HB); nra. }
    apply Z.eqb_neq in NZ.
    destruct (Z.even mb) eqn:Ev; rewrite NZ.
    + apply Hc. destruct (Z.compare_spec (2 * r) mb) as [E|E|E]; cbv beta iota.
      * rewrite <- H2, E. reflexivity.
      * apply Hlt in E. rewrite H2 in E. exact E.
      * apply Hlt in E. rewrite H2 in E. exact E.
    + assert (Hodd : Z.odd mb = true) by (rewrite <- Z.negb_even, Ev; reflexivity).
      apply Z.odd_spec in Hodd. destruct Hodd as [k Hk].
      destruct (Z.compare_spec (2 * r + 1) mb) as [E|E|E]; apply Hc; cbv beta iota.
      * assert (E' : (2 * r < mb)%Z) by lia.
        apply Hlt in E'. rewrite H2 in E'. exact E'.
      * assert (E' : (2 * r < mb)%Z) by lia.
        apply Hlt in E'. rewrite H2 in E'. exact E'.
      * assert (E' : (mb < 2 * r)%Z) by lia.
        apply Hlt in E'. rewrite H2 in E'. exact E'.
Qed.

(** A dividend below the divisor: their digits. *)
Lemma small_quotient ma mb s :
  (0 <= s)%Z -> (Zpos ma * 2 ^ s < Zpos mb)%Z ->
  (Zpos (digits2_pos ma) - 1 + s < Zpos (digits2_pos mb))%Z.
Proof.
  intros Hs Hlt.
  destruct (digits_bounds ma) as [Ha _]. destruct (digits_bounds mb) as [_ Hb].
  set (d1 := Zpos (digits2_pos ma)) in *. set (d2 := Zpos (digits2_pos mb)) in *.
  destruct (Z_lt_le_dec (d1 - 1 + s) d2) as [|Hge]; [assumption|].
  assert (Hp : (2 ^ d2 <= 2 ^ (d1 - 1 + s))%Z) by (apply Z.pow_le_mono_r; lia).
  rewrite Z.pow_add_r in Hp by lia.
  assert (Hps : (0 < 2 ^ s)%Z) by (apply Z.pow_pos_nonneg; lia). nia.
Qed.

Lemma pow2_opp e : pow2 (- e) * pow2 e == 1.
Proof. rewrite <- pow2_add. replace (- e + e)%Z with 0%Z by lia. reflexivity. Qed.

Lemma SFdiv_correct a mb eb :
  SFnonneg a = true ->
  SFmag a / (inject_Z (Zpos mb) * pow2 eb) < pow2 1023 ->
  SFnonneg (SFdiv prec emax a (S754_finite false mb eb)) = true /\
  Qabs (SFmag (SFdiv prec emax a (S754_finite false mb eb)) -
        SFmag a / (inject_Z (Zpos mb) * pow2 eb)) <=
    half_ulp (SFmag a / (inject_Z (Zpos mb) * pow2 eb)).
Proof.
  intros Ha Hlt.
  pose proof (pow2_pos eb) as HPb.
  assert (HB : 0 < inject_Z (Zpos mb))
    by (change 0 with (inject_Z 0); now rewrite <- Zlt_Qlt).
  set (Y := inject_Z (Zpos mb) * pow2 eb) in *.
  assert (HY : 0 < Y) by (unfold Y; nra).
  destruct a as [sa| | |sa ma ea]; try discriminate.
  - cbn [SFdiv SFmag SFnonneg]. split; [reflexivity|].
    assert (E : 0 / Y == 0) by (unfold Qdiv; ring).
    unfold half_ulp. rewrite E. apply Qabs_Qle_condition.
    pose proof (pow2_pos (-1075)). split; lra.
  - destruct sa; try discriminate. cbn [SFmag] in *.
    set (x := inject_Z (Zpos ma) * pow2 ea / Y) in *.
    unfold SFdiv, SFdiv_core_binary. cbn [Zdigits2 xorb].
    pose proof (digits_bounds ma) as Hd1. pose proof (digits_bounds mb) as Hd2.
    set (d1 := Zpos (digits2_pos ma)) in *. set (d2 := Zpos (digits2_pos mb)) in *.
    rewrite fexp_eq.
    set (e' := Z.min (Z.max (d1 + ea - (d2 + eb) - 53) (-1074)) (ea - eb)).
    set (s := (ea - eb - e')%Z).
    assert (Hs : (0 <= s)%Z) by lia.
    assert (Hm' : match s with
                  | Zpos _ => Z.shiftl (Zpos ma) s
                  | Z0 => Zpos ma
                  | Zneg _ => 0%Z
                  end = (Zpos ma * 2 ^ s)%Z).
    { destruct s as [|p|p] eqn:Es; [lia| |lia].
      rewrite Z.shiftl_mul_pow2 by lia. reflexivity. }
    rewrite Hm'.
    pose proof (Z_div_mod (Zpos ma * 2 ^ s) (Zpos mb) eq_refl) as Hdm.
    destruct (Z.div_eucl (Zpos ma * 2 ^ s) (Zpos mb)) as [q r].
    destruct Hdm as [Hqr Hr].
    assert (Hq0 : (0 <= q)%Z).
    { assert (0 < 2 ^ s)%Z by (apply Z.pow_pos_nonneg; lia). nia. }
    (* the exact quotient, in units of [2^e'] *)
    assert (Hx : x * inject_Z (Zpos mb) ==
                 (inject_Z q * inject_Z (Zpos mb) + inject_Z r) * pow2 e').
    { assert (E1 : inject_Z q * inject_Z (Zpos mb) + inject_Z r ==
                   inject_Z (Zpos ma) * pow2 s).
      { rewrite <- inject_Z_mult, <- inject_Z_plus, <- inject_Z_pow2 by lia.
        rewrite <- inject_Z_mult. replace (q * Zpos mb + r)%Z
          with (Zpos ma * 2 ^ s)%Z by lia. reflexivity. }
      rewrite E1.
      assert (E2 : pow2 s * pow2 e' * pow2 eb == pow2 ea).
      { rewrite <- !pow2_add. replace (s + e' + eb)%Z with ea by lia. reflexivity. }
      apply (Qmult_inj_r _ _ (pow2 eb)); [lra|].
      transitivity (inject_Z (Zpos ma) * pow2 ea).
      - unfold x, Y. field. split; lra.
      - rewrite <- E2. ring. }
    pose proof (new_location_located (Zpos mb) q r e' x Hr Hx) as Hloc.
    destruct (located_bounds _ _ _ _ Hloc) as [Hlo Hhi].
    pose proof (pow2_pos e') as HPe.
    destruct (binary_round_aux_correct false q e' (new_location (Zpos mb) r) x)
      as [Hz He]; [exact Hq0 | exact Hloc | | |].
    + (* enough digits *)
      rewrite fexp_eq.
      destruct (Z.eq_dec q 0) as [->|Hq].
      * (* the quotient is below one unit *)
        cbn [Zdigits2].
        assert (Hk : (d1 - 1 + s < d2)%Z)
          by (apply small_quotient; [exact Hs | lia]).
        lia.
      * assert (Hdq : (d1 + s - d2 <= Zdigits2 q)%Z).
        { pose proof (Zdigits2_nonneg q).
          destruct (Z_lt_le_dec (d1 - 1 + s - d2) 0) as [|Hge]; [lia|].
          apply Zdigits2_ge; [lia|].
          replace (d1 + s - d2 - 1)%Z with (d1 - 1 + s - d2)%Z by lia.
          assert (Hle : (2 ^ (d1 - 1 + s - d2) <= (Zpos ma * 2 ^ s) / Zpos mb)%Z).
          { apply Z.div_le_lower_bound; [lia|].
            assert (Hk : (0 < 2 ^ (d1 - 1 + s - d2))%Z)
              by (apply Z.pow_pos_nonneg; lia).
            assert (Hps : (0 < 2 ^ s)%Z) by (apply Z.pow_pos_nonneg; lia).
            assert (E1 : (2 ^ d2 * 2 ^ (d1 - 1 + s - d2) =
                          2 ^ (d1 - 1) * 2 ^ s)%Z).
            { rewrite <- !Z.pow_add_r by lia. f_equal. lia. }
            nia. }
          assert (Hqd : q = (Zpos ma * 2 ^ s / Zpos mb)%Z).
          { apply (Z.div_unique _ _ q r); [lia|]. lia. }
          rewrite Hqd. exact Hle. }
        lia.
    + (* no overflow *)
      destruct q as [|p|p]; [| |lia].
      * cbn [Zdigits2].
        assert (Hk : (d1 - 1 + s < d2)%Z)
          by (apply small_quotient; [exact Hs | lia]).
        lia.
      * cbn [Zdigits2]. apply value_digits. lra.
    + split; [|exact He].
      destruct Hz as [->|(m & e & ->)]; reflexivity.
Qed.

Lemma exact_value_mag x : non_negative x = true -> exact_value x == mag x.
Proof.
  unfold non_negative, exact_value, mag.
  destruct (Prim2SF x) as [s| | |[] m e]; cbn; intros H; try discriminate;
    try reflexivity.
  ring.
Qed.

Lemma mag_nonneg x : 0 <= mag x.
Proof. apply SFmag_nonneg. Qed.

Lemma Qabs_bounds x y : Qabs x <= y -> - y <= x /\ x <= y.
Proof. apply Qabs_Qle_condition. Qed.

Lemma pow2_1023 : 1048576 <= pow2 1023.
Proof. change 1048576 with (pow2 20). apply pow2_le. lia. Qed.

Lemma pow2_m1075 : pow2 (-1075) <= 1 # 1267650600228229401496703205376.
Proof.
  change (1 # 1267650600228229401496703205376) with (pow2 (-100)).
  apply pow2_le. lia.
Qed.

Lemma pow2_m53 : pow2 (-53) == 1 # 9007199254740992.
Proof. reflexivity. Qed.

Lemma add_correct x y :
  non_negative x = true -> non_negative y = true ->
  mag x + mag y <= 1048576 ->
  non_negative (add x y) = true /\
  Qabs (mag (add x y) - (mag x + mag y)) <= half_ulp (mag x + mag y).
Proof.
  intros Hx Hy Hb. unfold non_negative, mag in *. rewrite add_spec.
  apply SFadd_correct; try assumption.
  pose proof (pow2_lt 20 1023 ltac:(lia)) as Hp.
  change (pow2 20) with 1048576 in Hp. lra.
Qed.

Lemma div_100_correct x :
  non_negative x = true -> mag x <= 1048576 ->
  non_negative (div x 100) = true /\
  Qabs (mag (div x 100) - mag x * (1 # 100)) <= half_ulp (mag x * (1 # 100)).
Proof.
  intros Hx Hb. unfold non_negative, mag in *. rewrite div_spec.
  change (Prim2SF 100) with (S754_finite false 7036874417766400 (-46)).
  assert (HY : inject_Z 7036874417766400 * pow2 (-46) == 100) by reflexivity.
  pose proof (SFmag_nonneg (Prim2SF x)) as Hn.
  assert (E : SFmag (Prim2SF x) / (inject_Z 7036874417766400 * pow2 (-46)) ==
              SFmag (Prim2SF x) * (1 # 100)).
  { rewrite HY. unfold Qdiv. reflexivity. }
  destruct (SFdiv_correct (Prim2SF x) 7036874417766400 (-46) Hx) as [H1 H2].
  - rewrite E. pose proof (pow2_lt 20 1023 ltac:(lia)) as Hp.
    change (pow2 20) with 1048576 in Hp. lra.
  - split; [exact H1|]. unfold half_ulp in *. rewrite E in H2. exact H2.
Qed.

Lemma mul_capital_correct x :
  non_negative x = true -> mag x <= 1048576 ->
  non_negative (mul x total_capital) = true /\
  Qabs (mag (mul x total_capital) - mag x * 100000) <=
    half_ulp (mag x * 100000).
Proof.
  intros Hx Hb. unfold non_negative, mag, total_capital in *. rewrite mul_spec.
  pose proof (Prim2SF_valid x) as Vx. pose proof (Prim2SF_valid 100000) as Vc.
  change (Prim2SF 100000) with (S754_finite false 6871947673600000 (-36)) in *.
  assert (HY : inject_Z 6871947673600000 * pow2 (-36) == 100000) by reflexivity.
  pose proof (SFmag_nonneg (Prim2SF x)) as Hn.
  destruct (SFmul_correct (Prim2SF x) (S754_finite false 6871947673600000 (-36))
              Hx eq_refl Vx Vc) as [H1 H2].
  - cbn [SFmag]. rewrite HY. pose proof (pow2_le 40 1023 ltac:(lia)) as Hp.
    change (pow2 40) with 1099511627776 in Hp. nra.
  - split; [exact H1|]. unfold half_ulp in *. cbn [SFmag] in H2.
    rewrite HY in H2. exact H2.
Qed.

(** The capital of one holding, line 92: a thousand times the allocation,
    up to the rounding of the division and of the product. *)
Lemma capital_correct a :
  non_negative a = true -> mag a <= 1024 ->
  non_negative (capital a) = true /\
  Qabs (mag (capital a) - 1000 * mag a) <=
    mag a * (1 # 2199023255552) + 262144 * pow2 (-1075).
Proof.
  intros Ha Hb. unfold capital. pose proof (mag_nonneg a) as Ha0.
  destruct (div_100_correct a Ha) as [Hd Hde]; [lra|].
  pose proof (mag_nonneg (div a 100)) as Hd0.
  pose proof pow2_m1075 as Ht. pose proof (pow2_pos (-1075)) as Ht0.
  unfold half_ulp in *. rewrite pow2_m53 in *.
  apply Qabs_bounds in Hde.
  destruct (mul_capital_correct (div a 100) Hd) as [Hc Hce]; [lra|].
  unfold half_ulp in Hce. rewrite pow2_m53 in Hce.
  apply Qabs_bounds in Hce.
  split; [exact Hc|]. apply Qabs_Qle_condition.
  set (A := mag a) in *. set (D := mag (div a 100)) in *.
  set (C := mag (mul (div a 100) total_capital)) in *.
  set (t := pow2 (-1075)) in *.
  split; lra.
Qed.

Lemma sum_mag_nonneg l : 0 <= sum_mag l.
Proof.
  induction l as [|c l IH]; cbn [sum_mag]; [lra|].
  pose proof (mag_nonneg c). lra.
Qed.

Lemma sum_exact_mag l :
  Forall (fun a => non_negative a = true) l -> sum_exact l == sum_mag l.
Proof.
  induction 1 as [|a l Ha _ IH]; cbn [sum_exact sum_mag]; [reflexivity|].
  rewrite IH, (exact_value_mag a Ha). reflexivity.
Qed.

Lemma count_of_cons c l : count_of (c :: l) == count_of l + 1.
Proof.
  unfold count_of. cbn [List.length]. rewrite Nat2Z.inj_succ.
  unfold Z.succ. rewrite inject_Z_plus. reflexivity.
Qed.

Lemma count_of_nonneg l : 0 <= count_of l.
Proof.
  unfold count_of. change 0 with (inject_Z 0). rewrite <- Zle_Qle. lia.
Qed.

(** The running total of line 117: floats that are not negative, added
    from left to right below [2^17], are off their exact sum by at most
    [add_error] for each addition. *)
Lemma fold_add_correct caps : forall t,
  non_negative t = true ->
  Forall (fun c => non_negative c = true) caps ->
  mag t + sum_mag caps + count_of caps * add_error <= 131072 ->
  non_negative (fold_left add caps t) = true /\
  Qabs (mag (fold_left add caps t) - (mag t + sum_mag caps)) <=
    count_of caps * add_error.
Proof.
  pose proof (pow2_pos (-1075)) as Ht0.
  assert (Hs0 : 0 < add_error) by (unfold add_error; lra).
  induction caps as [|c caps IH]; intros t Ht Hc Hb; cbn [fold_left sum_mag] in *.
  - split; [exact Ht|]. apply Qabs_Qle_condition.
    assert (E : count_of [] == 0) by reflexivity. rewrite E. split; lra.
  - inversion Hc as [|? ? Hc1 Hc2]; subst.
    pose proof (mag_nonneg t) as Nt. pose proof (mag_nonneg c) as Nc.
    pose proof (sum_mag_nonneg caps) as Ns.
    pose proof (count_of_nonneg caps) as Nn.
    rewrite count_of_cons in Hb |- *.
    assert (Hn0 : 0 <= count_of caps * add_error) by nra.
    destruct (add_correct t c Ht Hc1) as [H1 H2]; [lra|].
    unfold half_ulp in H2. rewrite pow2_m53 in H2. apply Qabs_bounds in H2.
    assert (Hstep : (1 # 9007199254740992) * (mag t + mag c) + pow2 (-1075)
                    <= add_error).
    { unfold add_error. lra. }
    destruct (IH (add t c) H1 Hc2) as [H3 H4]; [lra|].
    split; [exact H3|]. apply Qabs_bounds in H4. apply Qabs_Qle_condition.
    split; lra.
Qed.

Lemma capitals_correct allocs :
  Forall (fun a => non_negative a = true) allocs ->
  sum_mag allocs <= 1024 ->
  Forall (fun c => non_negative c = true) (map capital allocs) /\
  Qabs (sum_mag (map capital allocs) - 1000 * sum_mag allocs) <=
    sum_mag allocs * (1 # 2199023255552) +
    count_of allocs * (262144 * pow2 (-1075)).
Proof.
  pose proof (pow2_pos (-1075)) as Ht0.
  induction allocs as [|a allocs IH]; intros Hn Hb; cbn [map sum_mag] in *.
  - split; [constructor|]. apply Qabs_Qle_condition.
    assert (E : count_of [] == 0) by reflexivity. rewrite E. split; lra.
  - inversion Hn as [|? ? Ha Hn']; subst.
    pose proof (mag_nonneg a) as Na. pose proof (sum_mag_nonneg allocs) as Ns.
    destruct (capital_correct a Ha) as [H1 H2]; [lra|].
    destruct (IH Hn') as [H3 H4]; [lra|].
    split; [constructor; assumption|].
    rewrite count_of_cons. apply Qabs_bounds in H2, H4.
    apply Qabs_Qle_condition. split; lra.
Qed.

(** The total of line 117, for allocations that are not negative and add
    up to 100 to within a millionth of a percent, of at most a hundred
    million holdings: it is within 0.004 of the capital. *)
Lemma total_near_capital allocs :
  Forall (fun a => non_negative a = true) allocs ->
  (Z.of_nat (List.length allocs) <= 100000000)%Z ->
  Qabs (sum_mag allocs - 100) <= 1 # 1000000 ->
  non_negative (fold_left add (map capital allocs) zero) = true /\
  Qabs (mag (fold_left add (map capital allocs) zero) - 100000) <= 4 # 1000.
Proof.
  intros Hn Hlen Hsum. apply Qabs_bounds in Hsum.
  pose proof (pow2_pos (-1075)) as Ht0. pose proof pow2_m1075 as Ht.
  destruct (capitals_correct allocs Hn) as [Hc Hce]; [lra|].
  apply Qabs_bounds in Hce.
  assert (Hcount : count_of (map capital allocs) == count_of allocs).
  { unfold count_of. now rewrite length_map. }
  assert (HN : count_of allocs <= 100000000).
  { unfold count_of. change 100000000 with (inject_Z 100000000).
    rewrite <- Zle_Qle. lia. }
  pose proof (count_of_nonneg allocs) as HN0.
  set (t := pow2 (-1075)) in *.
  assert (HNt : count_of allocs * t <=
                100000000 * (1 # 1267650600228229401496703205376)) by nra.
  assert (Hz : mag zero == 0) by reflexivity.
  destruct (fold_add_correct (map capital allocs) zero eq_refl Hc) as [H1 H2].
  - rewrite Hcount, Hz. unfold add_error. fold t. lra.
  - split; [exact H1|]. apply Qabs_bounds in H2. rewrite Hcount, Hz in H2.
    unfold add_error in H2. fold t in H2. apply Qabs_Qle_condition. split; lra.
Qed.

(** Half-even division: the quotient is within a half of the ratio. *)
Lemma div_half_even_spec n d :
  (0 < d)%Z ->
  (2 * Z.abs (n - d * div_half_even n d) <= d)%Z /\
  ((2 * Z.abs (n - d * div_half_even n d) = d)%Z ->
   Z.even (div_half_even n d) = true).
Proof.
  intros Hd. unfold div_half_even.
  pose proof (Z.div_mod n d ltac:(lia)) as Hdm.
  pose proof (Z.mod_pos_bound n d Hd) as Hr.
  set (q := (n / d)%Z) in *. set (r := (n mod d)%Z) in *.
  destruct (Z.compare_spec (2 * r) d) as [E|E|E].
  - destruct (Z.even q) eqn:Ev.
    + split; [lia|]. intros _. exact Ev.
    + split; [lia|]. intros _. rewrite Z.even_add, Ev. reflexivity.
  - split; [lia|]. lia.
  - split; [lia|]. lia.
Qed.

Lemma round2_near_capital t :
  non_negative t = true -> Qabs (mag t - 100000) <= 4 # 1000 ->
  round2 t = 100000%float.
Proof.
  unfold non_negative, mag, round2.
  destruct (Prim2SF t) as [s| | |s m e]; try discriminate; cbn [SFmag SFnonneg].
  - intros _ H. apply Qabs_bounds in H. lra.
  - destruct s; try discriminate. intros _ H. apply Qabs_bounds in H.
    assert (Hh : (match e with
                  | Zneg p => div_half_even (100 * Zpos m) (2 ^ Zpos p)
                  | _ => 100 * Zpos m * 2 ^ e
                  end = 10000000)%Z).
    { assert (Hint : forall v : Z,
                (100000 - (4 # 1000) <= inject_Z v <= 100000 + (4 # 1000)) ->
                v = 100000%Z).
      { intros v [H1 H2].
        assert (inject_Z 99999 < inject_Z v) as Hl by (change (inject_Z 99999) with 99999; lra).
        assert (inject_Z v < inject_Z 100001) as Hu by (change (inject_Z 100001) with 100001; lra).
        rewrite <- Zlt_Qlt in Hl, Hu. lia. }
      destruct e as [|p|p].
      - change (pow2 0) with 1 in H.
        rewrite (Hint (Zpos m)) by lra. reflexivity.
      - rewrite pow2_nonneg, <- inject_Z_mult in H by lia.
        rewrite <- Z.mul_assoc, (Hint (Zpos m * 2 ^ Zpos p)%Z) by lra. reflexivity.
      - set (D := (2 ^ Zpos p)%Z).
        assert (HD : (0 < D)%Z) by (apply Z.pow_pos_nonneg; lia).
        assert (HDq : 0 < inject_Z D)
          by (change 0 with (inject_Z 0); now rewrite <- Zlt_Qlt).
        assert (Hinv : pow2 (Zneg p) * inject_Z D == 1).
        { unfold D. rewrite inject_Z_pow2 by lia.
          change (Zneg p) with (- Zpos p)%Z. apply pow2_opp. }
        set (V := inject_Z (Zpos m) * pow2 (Zneg p)) in *.
        assert (HM : V * inject_Z D == inject_Z (Zpos m)).
        { unfold V. rewrite <- Qmult_assoc, Hinv. ring. }
        assert (Hup : inject_Z (1000 * Zpos m) <= inject_Z (100000004 * D)).
        { rewrite !inject_Z_mult.
          change (inject_Z 1000) with 1000. change (inject_Z 100000004) with 100000004.
          nra. }
        assert (Hdn : inject_Z (99999996 * D) <= inject_Z (1000 * Zpos m)).
        { rewrite !inject_Z_mult.
          change (inject_Z 1000) with 1000. change (inject_Z 99999996) with 99999996.
          nra. }
        rewrite <- Zle_Qle in Hup, Hdn.
        destruct (div_half_even_spec (100 * Zpos m) D HD) as [Hs _].
        set (h := div_half_even (100 * Zpos m) D) in *. nia. }
    rewrite Hh. vm_compute. reflexivity.
Qed.

(** [round(x, 2)] meets its specification. *)
Lemma round2_spec x : rounded_to_2_decimals x (round2 x).
Proof.
  unfold rounded_to_2_decimals, round2, mag.
  destruct (Prim2SF x) as [s| | |s m e]; try reflexivity.
  cbn [SFmag].
  set (h := match e with
            | Zneg p => div_half_even (100 * Zpos m) (2 ^ Zpos p)
            | _ => (100 * Zpos m * 2 ^ e)%Z
            end).
  set (y := 100 * (inject_Z (Zpos m) * pow2 e) - inject_Z h).
  assert (Hh : (0 <= h)%Z /\ Qabs y <= 1 # 2 /\
               (Qabs y == 1 # 2 -> Z.even h = true)).
  { assert (Hexact : y == 0 ->
              Qabs y <= 1 # 2 /\ (Qabs y == 1 # 2 -> Z.even h = true)).
    { intros Hy. rewrite Hy. split; [discriminate|].
      intros Hc. vm_compute in Hc. discriminate Hc. }
    destruct e as [|p|p].
    - split; [subst h; lia|]. apply Hexact. subst y h.
      change (pow2 0) with 1. rewrite !inject_Z_mult.
      change (inject_Z (2 ^ 0)) with 1. change (inject_Z 100) with 100. ring.
    - split; [subst h; apply Z.mul_nonneg_nonneg; [lia|apply Z.pow_nonneg; lia]|].
      apply Hexact. subst y h.
      rewrite (pow2_nonneg (Zpos p)) by lia. rewrite !inject_Z_mult.
      change (inject_Z 100) with 100. ring.
    - set (D := (2 ^ Zpos p)%Z) in *.
      assert (HD : (0 < D)%Z) by (apply Z.pow_pos_nonneg; lia).
      assert (HDq : 0 < inject_Z D)
        by (change 0 with (inject_Z 0); now rewrite <- Zlt_Qlt).
      assert (Hinv : pow2 (Zneg p) * inject_Z D == 1).
      { unfold D. rewrite inject_Z_pow2 by lia.
        change (Zneg p) with (- Zpos p)%Z. apply pow2_opp. }
      destruct (div_half_even_spec (100 * Zpos m) D HD) as [Hs Hev].
      fold h in Hs, Hev.
      set (dl := (100 * Zpos m - D * h)%Z) in *.
      assert (Hy : y * inject_Z D == inject_Z dl).
      { unfold y, dl. unfold Z.sub.
        rewrite inject_Z_plus, inject_Z_opp, !inject_Z_mult.
        change (inject_Z 100) with 100.
        transitivity (100 * inject_Z (Zpos m) * (pow2 (Zneg p) * inject_Z D) -
                      inject_Z h * inject_Z D); [ring|].
        rewrite Hinv. ring. }
      clearbody y.
      assert (Hlo : inject_Z (- D) <= inject_Z (2 * dl))
        by (rewrite <- Zle_Qle; lia).
      assert (Hhi : inject_Z (2 * dl) <= inject_Z D)
        by (rewrite <- Zle_Qle; lia).
      rewrite inject_Z_opp in Hlo. rewrite inject_Z_mult in Hlo, Hhi.
      change (inject_Z 2) with 2 in Hlo, Hhi.
      split; [|split].
      + subst dl. nia.
      + apply Qabs_Qle_condition. split.
        * apply (Qmult_le_r _ _ (inject_Z D) HDq). nra.
        * apply (Qmult_le_r _ _ (inject_Z D) HDq). nra.
      + intros Hc. apply Hev.
        destruct (Qlt_le_dec y 0) as [Hneg|Hpos].
        * rewrite Qabs_neg in Hc by lra.
          assert (E : inject_Z (2 * dl) == inject_Z (- D)).
          { rewrite inject_Z_mult, inject_Z_opp. change (inject_Z 2) with 2.
            assert (Ey : y == - (1 # 2)) by lra.
            rewrite <- Hy, Ey. ring. }
          unfold Qeq, inject_Z in E. cbn [Qnum Qden] in E. lia.
        * rewrite Qabs_pos in Hc by lra.
          assert (E : inject_Z (2 * dl) == inject_Z D).
          { rewrite inject_Z_mult. change (inject_Z 2) with 2.
            rewrite <- Hy, Hc. ring. }
          unfold Qeq, inject_Z in E. cbn [Qnum Qden] in E. lia. }
  destruct Hh as (H0 & H1 & H2).
  exists h. split; [exact H0|]. split; [exact H1|]. split; [exact H2|].
  unfold of_decimal. destruct h; reflexivity.
Qed.

(** A batch that maps without an exception keeps its length. *)
Lemma map_result_length {A B} (f : A -> result B) l : forall bs,
  map_result f l = Ok bs -> List.length bs = List.length l.
Proof.
  induction l as [|a l IH]; intros bs H; cbn [map_result] in H.
  - injection H as <-. reflexivity.
  - destruct (f a) as [b|x]; [|discriminate]. cbn [rbind] in H.
    destruct (map_result f l) as [bs'|x]; [|discriminate].
    cbn [rbind] in H. injection H as <-. cbn [List.length].
    now rewrite (IH bs' eq_refl).
Qed.

(** The capitals of a batch are those of its allocations. *)
Lemma allocations_capitals items : forall allocs,
  map_result allocation_percent_of items = Ok allocs ->
  map_result capital_allocated_of items = Ok (map capital allocs).
Proof.
  induction items as [|item items IH]; intros allocs H; cbn [map_result] in *.
  - injection H as <-. reflexivity.
  - unfold capital_allocated_of at 1.
    destruct (allocation_percent_of item) as [a|x]; [|discriminate].
    cbn [rbind] in *.
    destruct (map_result allocation_percent_of items) as [l|x]; [|discriminate].
    cbn [rbind] in H. injection H as <-.
    rewrite (IH l eq_refl). reflexivity.
Qed.

(** The total of a batch whose allocations are not negative and add up to
    100: it rounds to the capital. *)
Lemma total_rounds_to_capital allocs :
  Forall (fun a => non_negative a = true) allocs ->
  (Z.of_nat (List.length allocs) <= 100000000)%Z ->
  Qabs (sum_exact allocs - 100) <= 1 # 1000000 ->
  round2 (fold_left add (map capital allocs) zero) = 100000%float.
Proof.
  intros Hn Hlen Hsum. rewrite (sum_exact_mag allocs Hn) in Hsum.
  destruct (total_near_capital allocs Hn Hlen Hsum) as [H1 H2].
  now apply round2_near_capital.
Qed.

End FloatFacts.

Section Sums.

Variable E : env.

(** Holdings processed to completion: their capitals are added in order,
    and each is reported rounded. *)
Lemma complete_capitals items : forall l w l' w',
  complete E items l w = Some (l', w') ->
  exists caps,
    map_result capital_allocated_of items = Ok caps /\
    total_value l' = fold_left add caps (total_value l) /\
    map holding_capital (detailed_holdings l') =
      map holding_capital (detailed_holdings l) ++
      map (fun c => Some (VFloat (round2 c))) caps.
Proof.
  induction items as [|item items IH]; intros l w l' w' H; cbn [complete] in H.
  - inversion H; subst. exists []. cbn. now rewrite app_nil_r.
  - destruct (loop_body E item l w) as [w1 [[l1|l1]|x]] eqn:Hb; try discriminate.
    destruct (loop_body_next_inv E _ _ _ _ _ Hb)
      as (d & a & p & -> & Ha & _ & _ & Ht & Hd).
    destruct (IH _ _ _ _ H) as (caps & Hc & Htot & Hh).
    exists (mul (div a 100) total_capital :: caps).
    cbn [map_result]. unfold capital_allocated_of at 1.
    rewrite Ha. cbn [rbind]. rewrite Hc. cbn [rbind fold_left map].
    split; [reflexivity|]. split; [now rewrite Htot, Ht|].
    rewrite Hh, Hd, map_app, <- app_assoc. reflexivity.
Qed.

(** The status a reply shows is the one it was built from. *)
Lemma reply_status f st rd ei :
  lookup (body (reply E f st rd ei)) "status" = Some (VStr st).
Proof.
  unfold reply, reply_mcp. cbn [body].
  destruct (String.eqb st "success"); reflexivity.
Qed.

(** From the reply of a request back to its loop. *)
Lemma run_analyze_inv data f items m :
  analyze_request data f items ->
  outbox (run E (Some (Ok data)) world0) = [m] ->
  exists w l,
    for_each E items locals0 world0 = (w, Ok l) /\
    m = reply E f (status l)
          (if String.eqb (status l) "success" then summary l else None_)
          (error_info l).
Proof.
  intros (Hx & Hi & Hit) Hm.
  unfold run, handle, process, send in Hm. unfold_m.
  rewrite Hx, Hi, Hit in Hm.
  destruct (for_each E items locals0 world0) as [w [l|x]] eqn:Hl;
    pose proof (for_each_outbox E _ _ _ _ _ Hl) as Ho; cbn in Ho.
  - exists w, l. split; [reflexivity|].
    cbn [to reply] in Hm. destruct (accepts E (reply_to f)).
    + cbn in Hm. rewrite Ho in Hm. now inversion Hm.
    + cbn in Hm. rewrite Ho in Hm. discriminate.
  - cbn in Hm. rewrite Ho in Hm. discriminate.
Qed.

End Sums.

(* ================================================================== *)
(** * The claims *)
(* ================================================================== *)

(** What a failure reply shows, whatever its error body. *)
Lemma failure_reply_shape E f err :
  let m := reply E f "failure" None_ err in
  performative m = "failure" /\
  lookup (body m) "status" = Some (VStr "failure") /\
  reported_error m = Some err /\
  lookup (body m) "result" = None.
Proof. cbn. repeat split. Qed.

(** The run of a request whose loop breaks on the holding after [pre]. *)
Lemma run_break E data f pre item post l1 w1 w2 l2 :
  analyze_request data f (pre ++ item :: post) ->
  accepts E (reply_to f) = true ->
  complete E pre locals0 world0 = Some (l1, w1) ->
  loop_body E item l1 w1 = (w2, Ok (Break l2)) ->
  status l2 = "failure" ->
  run E (Some (Ok data)) world0 =
    World (lookups w2) [reply E f "failure" None_ (error_info l2)].
Proof.
  intros (Hx & Hi & Hit) Ha Hc Hb Hs.
  rewrite (run_analyze E data f _ l2 w2 Hx Hi Hit Ha).
  - rewrite Hs. reflexivity.
  - rewrite (for_each_complete E pre _ _ _ _ _ Hc).
    now apply for_each_break.
Qed.




(** The run of a request whose inner [try] raises on the holding after
    [pre]. *)
Lemma run_try_raises E data f pre d post l1 w1 w2 x :
  analyze_request data f (pre ++ JDict d :: post) ->
  accepts E (reply_to f) = true ->
  complete E pre locals0 world0 = Some (l1, w1) ->
  truthy (field d "symbol") && truthy (field d "allocation") = true ->
  try_block E (field d "symbol") (field d "allocation") l1 w1 = (w2, Raise x) ->
  run E (Some (Ok data)) world0 =
    World (lookups w2)
      [reply E f "failure" None_ (api_fetch_error (field d "symbol"))].
Proof.
  intros Hreq Ha Hc Hv Ht.
  rewrite (run_break E data f pre (JDict d) post l1 w1 w2
             (except_block (field d "symbol") l1) Hreq Ha Hc).
  - reflexivity.
  - rewrite (loop_body_valid E d l1 w1 Hv), Ht. reflexivity.
  - reflexivity.
Qed.

Lemma complete_lookups0 E pre l1 w1 :
  complete E pre locals0 world0 = Some (l1, w1) ->
  lookups w1 = map symbol_of pre /\ List.length (lookups w1) = List.length pre.
Proof.
  intros Hc. rewrite (complete_lookups E _ _ _ _ _ Hc). cbn.
  now rewrite length_map.
Qed.






(** C10: a request with intent "analyze_portfolio" and no holding succeeds
    without any lookup: the one reply is a success envelope whose result
    reports total_estimated_value 0.0, num_holdings 0 and an empty
    holdings_details. *)
Theorem empty_portfolio_succeeds E data f :
  analyze_request data f [] ->
  accepts E (reply_to f) = true ->
  let result_data :=
    VDict [("portfolio_summary",
             VDict [("total_estimated_value", VFloat 0);
                    ("base_capital", VFloat 100000);
                    ("num_holdings", VInt 0)]);
           ("holdings_details", VList [])] in
  let m := reply E f "success" result_data None_ in
  run E (Some (Ok data)) world0 = World [] [m] /\
  performative m = "inform" /\
  lookup (body m) "status" = Some (VStr "success") /\
  lookup (body m) "result" = Some result_data /\
  reported_error m = None.
Proof.
  intros (Hx & Hi & Hit) Ha result_data m.
  split; [|cbn; repeat split].
  now rewrite (run_analyze E data f [] locals0 world0 Hx Hi Hit Ha eq_refl).
Qed.

Lemma empty_portfolio_succeeds_witness :
  lookups (run Examples.E0
             (Some (Ok (Examples.request "analyze_portfolio" []))) world0) = [] /\
  map reported_total
    (outbox (run Examples.E0
               (Some (Ok (Examples.request "analyze_portfolio" []))) world0)) =
  [Some (VFloat 0)].
Proof.
  rewrite (proj1 (empty_portfolio_succeeds Examples.E0
                    (Examples.request "analyze_portfolio" [])
                    (Examples.the_fields "analyze_portfolio" [])
                    (conj eq_refl (conj eq_refl eq_refl)) eq_refl)).
  split; reflexivity.
Defined.

(** C6: a holding that the loop processes to completion has an allocation
    text that parses to some [a], and the holding appended to the output has
    capital_allocated = round(a / 100 * 100000.0, 2) and estimated_shares =
    round((a / 100 * 100000.0) / current_price, 2) for the current_price it
    reports, where round(x, 2) is [x] rounded to 2 decimals in the words of
    the specification ([rounded_to_2_decimals]); in Scenario A (AAPL 50% at
    100, MSFT 50% at 200) the reply is the success envelope listing AAPL
    with capital 50000 and 500 shares, MSFT with capital 50000 and 250
    shares, and total 100000; and for one holding of 58% at a price of 7,
    where a / 100 * 100000.0 is the float below 58000, the reply lists the
    capital 58000.0 and 8285.71 shares. *)
Theorem completed_holding_values E item l w l' w' :
  loop_body E item l w = (w', Ok (Next l')) ->
  (exists a current_price capital_allocated estimated_shares,
     allocation_percent_of item = Ok a /\
     detailed_holdings l' =
       detailed_holdings l ++
         [VDict [("symbol", VJson (symbol_of item));
                 ("allocation_percent", VFloat a);
                 ("capital_allocated", VFloat capital_allocated);
                 ("estimated_shares", VFloat estimated_shares);
                 ("current_price", VFloat current_price)]] /\
     capital_allocated = round2 (mul (div a 100) 100000) /\
     estimated_shares =
       round2 (div (mul (div a 100) 100000) current_price) /\
     rounded_to_2_decimals (mul (div a 100) 100000) capital_allocated /\
     rounded_to_2_decimals (div (mul (div a 100) 100000) current_price)
       estimated_shares) /\
  run Examples.E0
    (Some (Ok (Examples.request "analyze_portfolio" Examples.scenario_A)))
    world0 =
  World [JStr "AAPL"; JStr "MSFT"]
    [reply Examples.E0
       (Examples.the_fields "analyze_portfolio" Examples.scenario_A)
       "success" Examples.scenario_A_result None_] /\
  PrimFloat.ltb (mul (div 58 100) 100000) 58000 = true /\
  run (Service.E_flat "7")
    (Some (Ok (Examples.request "analyze_portfolio" Examples.fifty_eight)))
    world0 =
  World [JStr "AAPL"]
    [reply (Service.E_flat "7")
       (Examples.the_fields "analyze_portfolio" Examples.fifty_eight)
       "success" Examples.fifty_eight_result None_].
Proof.
  intros H.
  split; [|split; [|split]; vm_compute; reflexivity].
  destruct (loop_body_next_inv E _ _ _ _ _ H)
    as (d & a & p & -> & Ha & _ & _ & _ & Hd).
  exists a, p, (round2 (mul (div a 100) 100000)),
    (round2 (div (mul (div a 100) 100000) p)).
  split; [exact Ha|]. split; [exact Hd|].
  split; [reflexivity|]. split; [reflexivity|].
  split; apply round2_spec.
Qed.

Lemma completed_holding_values_witness :
  exists a current_price capital_allocated estimated_shares,
    allocation_percent_of (JDict (Examples.holding "AAPL" "58%")) = Ok a /\
    [Examples.fifty_eight_holding] =
    [VDict [("symbol", VJson (JStr "AAPL"));
            ("allocation_percent", VFloat a);
            ("capital_allocated", VFloat capital_allocated);
            ("estimated_shares", VFloat estimated_shares);
            ("current_price", VFloat current_price)]] /\
    capital_allocated = round2 (mul (div a 100) 100000) /\
    estimated_shares =
      round2 (div (mul (div a 100) 100000) current_price) /\
    rounded_to_2_decimals (mul (div a 100) 100000) capital_allocated /\
    rounded_to_2_decimals (div (mul (div a 100) 100000) current_price)
      estimated_shares.
Proof.
  refine (proj1 (completed_holding_values (Service.E_flat "7")
                   (JDict (Examples.holding "AAPL" "58%")) locals0 world0
                   (Locals "success" None_ 0x1.c51ffffffffffp+15
                      [Examples.fifty_eight_holding])
                   (World [JStr "AAPL"] []) _)).
  vm_compute. reflexivity.
Defined.

(** C1: the code does not do what the claim asks.  In a request with intent
    "analyze_portfolio", when the lookup of a holding (reached by the loop,
    valid, with a numeric allocation) returns an answer whose price field is
    absent or empty, [current_price] is 0.0, the unguarded division of line
    108 raises ZeroDivisionError, and the handler of the inner [try] turns it
    into a failure: the one reply is a failure envelope with code
    API_FETCH_ERROR naming the symbol, it has no result, and the lookups of
    the run end with that of this holding, so the remaining holdings are not
    processed. *)
Theorem missing_price_fails_the_batch E data f pre d post l1 w1 a api_data price_str :
  analyze_request data f (pre ++ JDict d :: post) ->
  accepts E (reply_to f) = true ->
  complete E pre locals0 world0 = Some (l1, w1) ->
  truthy (field d "symbol") && truthy (field d "allocation") = true ->
  rbind (strip (field d "allocation")) float_of_string = Ok a ->
  fetch E (List.length pre) (field d "symbol") = Ok api_data ->
  price_field api_data = Ok price_str ->
  truthy price_str = false ->
  let m := reply E f "failure" None_ (api_fetch_error (field d "symbol")) in
  run E (Some (Ok data)) world0 =
    World (map symbol_of (pre ++ [JDict d])) [m] /\
  performative m = "failure" /\
  lookup (body m) "status" = Some (VStr "failure") /\
  reported_error m = Some (api_fetch_error (field d "symbol")) /\
  lookup (body m) "result" = None.
Proof.
  intros Hreq Ha Hc Hv Hp Hf Hq Ht m. split; [|apply failure_reply_shape].
  destruct (complete_lookups0 E pre l1 w1 Hc) as [Hl Hn].
  rewrite <- Hn in Hf.
  assert (Hr : try_block E (field d "symbol") (field d "allocation") l1 w1 =
               (World (lookups w1 ++ [field d "symbol"]) (outbox w1),
                Raise ZeroDivisionError)).
  { rewrite (try_block_lookup_ok E _ _ l1 w1 a api_data Hp Hf).
    cbn zeta. rewrite Hq. cbn [rbind]. rewrite Ht. reflexivity. }
  rewrite (run_try_raises E data f pre d post l1 w1 _ _ Hreq Ha Hc Hv Hr).
  cbn [lookups]. rewrite Hl, map_app. reflexivity.
Qed.

Lemma missing_price_fails_the_batch_witness :
  let hs := [JDict (Examples.holding "AAPL" "50%");
             JDict (Examples.holding "TSLA" "25%");
             JDict (Examples.holding "MSFT" "25%")] in
  fetch Examples.E0 1 (JStr "TSLA") = Ok Examples.quote_without_price /\
  price_field Examples.quote_without_price = Ok JNull /\
  run Examples.E0 (Some (Ok (Examples.request "analyze_portfolio" hs))) world0 =
  World [JStr "AAPL"; JStr "TSLA"]
    [reply Examples.E0 (Examples.the_fields "analyze_portfolio" hs) "failure"
       None_ (api_fetch_error (JStr "TSLA"))].
Proof.
  split; [reflexivity|]. split; [reflexivity|].
  refine (proj1 (missing_price_fails_the_batch Examples.E0 _
                   (Examples.the_fields "analyze_portfolio" _)
                   [JDict (Examples.holding "AAPL" "50%")]
                   (Examples.holding "TSLA" "25%")
                   [JDict (Examples.holding "MSFT" "25%")] _ _ _
                   Examples.quote_without_price JNull
                   _ _ _ _ _ _ _ _)).
  - repeat split; reflexivity.
  - reflexivity.
  - vm_compute. reflexivity.
  - reflexivity.
  - vm_compute. reflexivity.
  - reflexivity.
  - reflexivity.
  - reflexivity.
Defined.

(** C5, as the claim states it, fails: a decodable request without its
    [task_id] is answered by nothing (the KeyError of line 65 is caught by
    the outer handler, which only logs). *)
Lemma silent_drop_of_a_decodable_request :
  ~ (forall E decoded,
       outbox (run E (Some decoded) world0) = [] ->
       exists x, decoded = Raise x).
Proof.
  intros H.
  destruct (H Examples.E0 (Ok Examples.request_without_task_id) eq_refl)
    as [x Hx].
  discriminate Hx.
Qed.

(** C5, amended: for every inbound message the handler sends one reply or
    none; an undecodable payload gets none; and a decodable one gets none
    only when it is not answerable, that is when a field read at lines
    63-67 is missing or ill-typed, the transport does not take [reply_to] as
    an address, or, the intent being "analyze_portfolio", the holdings are
    not a sequence of objects. *)
Theorem one_reply_or_none E decoded :
  let out := outbox (run E (Some decoded) world0) in
  (out = [] \/ exists m, out = [m]) /\
  match decoded with
  | Raise _ => out = []
  | Ok data => out = [] -> answerable E data = false
  end.
Proof.
  intros out. split.
  - destruct (run_outbox E (Some decoded)) as [H|(f & st & rd & ei & _ & H)];
      [now left | right; eauto].
  - destruct decoded as [data|x]; [|reflexivity].
    intros Hout. destruct (answerable E data) eqn:Han; [|reflexivity].
    destruct (run_answerable E data Han) as [m Hm].
    unfold out in Hout. rewrite Hm in Hout. discriminate.
Qed.

(** C7: every reply the handler sends has status "success" or "failure";
    it has a result exactly when the status is "success", an error exactly
    when the status is "failure", and so exactly one of the two. *)
Theorem result_xor_error E msg m :
  In m (outbox (run E msg world0)) ->
  (lookup (body m) "status" = Some (VStr "success") \/
   lookup (body m) "status" = Some (VStr "failure")) /\
  (has_key (body m) "result" = true <->
   lookup (body m) "status" = Some (VStr "success")) /\
  (has_key (body m) "error" = true <->
   lookup (body m) "status" = Some (VStr "failure")) /\
  has_key (body m) "result" = negb (has_key (body m) "error").
Proof.
  intros Hin.
  destruct (run_outbox E msg) as [H|(f & st & rd & ei & Hs & H)];
    rewrite H in Hin; cbn in Hin; [contradiction|].
  destruct Hin as [<-|[]].
  destruct Hs as [-> | ->]; cbn; repeat split; auto; discriminate.
Qed.

Lemma result_xor_error_witness :
  let m := reply Examples.E0 (Examples.the_fields "unknown_intent" []) "failure"
             None_
             (VDict [("code", VStr "UNEXPECTED_INTENT");
                     ("message", VFormat "Unexpected intent: "
                                   (JStr "unknown_intent"))]) in
  has_key (body m) "result" = false /\ has_key (body m) "error" = true.
Proof.
  intros m.
  pose proof (result_xor_error Examples.E0
                (Some (Ok (Examples.request "unknown_intent" []))) m
                (or_introl eq_refl)) as (_ & _ & He & Hx).
  split; [|reflexivity].
  rewrite Hx. reflexivity.
Defined.

(** C8: two runs on the same message, with outsides that give the same
    price at every lookup and take the same addresses, make the same lookups
    and send replies that are equal once the time stamp is left out: the
    clock shows in no other field. *)
Theorem replay_is_deterministic E1 E2 msg :
  same_prices E1 E2 ->
  (forall v, accepts E1 v = accepts E2 v) ->
  lookups (run E1 msg world0) = lookups (run E2 msg world0) /\
  map without_timestamp (outbox (run E1 msg world0)) =
  map without_timestamp (outbox (run E2 msg world0)).
Proof. intros Hp Ha. now apply run_replay. Qed.

Lemma replay_is_deterministic_witness :
  utcnow Examples.E0 <> utcnow Examples.E1 /\
  fetch Examples.E0 0 (JStr "AAPL") <> fetch Examples.E1 0 (JStr "AAPL") /\
  map without_timestamp
    (outbox (run Examples.E0
               (Some (Ok (Examples.request "analyze_portfolio" Examples.scenario_A)))
               world0)) =
  map without_timestamp
    (outbox (run Examples.E1
               (Some (Ok (Examples.request "analyze_portfolio" Examples.scenario_A)))
               world0)).
Proof.
  split; [discriminate|]. split; [discriminate|].
  refine (proj2 (replay_is_deterministic Examples.E0 Examples.E1 _ _
                   (fun _ => eq_refl))).
  intros i symbol. cbn [fetch Examples.E0 Examples.E1].
  unfold Examples.market_later, Examples.market.
  destruct (eq_str symbol "AAPL"); [reflexivity|].
  destruct (eq_str symbol "MSFT"); [reflexivity|].
  destruct (eq_str symbol "TSLA"); reflexivity.
Defined.

(** C4: the reply of a successful "analyze_portfolio" request reports as
    total the sum of the capitals of its holdings (each allocation / 100 *
    100000.0, added in the order of the holdings as floats, from 0.0)
    rounded to 2 decimals, and lists each capital rounded to 2 decimals;
    and when the allocations are finite and not negative, and add up to 100
    as numbers (to within a millionth of a percent, which leaves room for
    decimal texts such as 33.3 that no float equals), over at most a
    hundred million holdings, the reported total is exactly 100000.0, so
    within the tolerance of 0.01: the rounding errors of lines 92 and 117
    stay below the half cent that round(total_value, 2) takes away. *)
Theorem reported_total_is_the_rounded_sum E data f items m :
  analyze_request data f items ->
  outbox (run E (Some (Ok data)) world0) = [m] ->
  lookup (body m) "status" = Some (VStr "success") ->
  exists caps,
    map_result capital_allocated_of items = Ok caps /\
    reported_total m = Some (VFloat (round2 (fold_left add caps zero))) /\
    (exists hs, reported_holdings m = Some (VList hs) /\
                map holding_capital hs =
                map (fun c => Some (VFloat (round2 c))) caps) /\
    (forall allocs,
       map_result allocation_percent_of items = Ok allocs ->
       Forall (fun a => non_negative a = true) allocs ->
       (Z.of_nat (List.length items) <= 100000000)%Z ->
       (Qabs (sum_exact allocs - 100) <= 1 # 1000000)%Q ->
       reported_total m = Some (VFloat 100000)).
Proof.
  intros Hreq Hm Hst.
  destruct (run_analyze_inv E data f items m Hreq Hm) as (w & l & Hl & ->).
  rewrite reply_status in Hst. injection Hst as Hs.
  destruct (complete_capitals E items _ _ _ _
              (for_each_success E _ _ _ _ _ Hl eq_refl Hs))
    as (caps & Hc & Ht & Hh).
  rewrite Hs.
  change (if String.eqb "success" "success" then summary l else None_)
    with (summary l).
  cbn [total_value locals0] in Ht.
  assert (Hr : reported_total (reply E f "success" (summary l) (error_info l)) =
               Some (VFloat (round2 (fold_left add caps zero)))).
  { rewrite <- Ht. reflexivity. }
  exists caps. split; [exact Hc|]. split; [exact Hr|]. split.
  - exists (detailed_holdings l). split; [reflexivity | exact Hh].
  - intros allocs Ha Hn Hlen Hsum. rewrite Hr.
    rewrite (allocations_capitals items allocs Ha) in Hc. injection Hc as <-.
    rewrite (total_rounds_to_capital allocs Hn); [reflexivity | | exact Hsum].
    rewrite (map_result_length _ _ _ Ha). exact Hlen.
Qed.

Lemma reported_total_is_the_rounded_sum_witness :
  (sum_exact Examples.thirds_allocations < 100)%Q /\
  exists m,
    outbox (run Examples.E0
              (Some (Ok (Examples.request "analyze_portfolio" Examples.thirds)))
              world0) = [m] /\
    reported_total m = Some (VFloat 100000).
Proof.
  split; [reflexivity|].
  eexists. split; [reflexivity|].
  destruct (reported_total_is_the_rounded_sum Examples.E0
              (Examples.request "analyze_portfolio" Examples.thirds)
              (Examples.the_fields "analyze_portfolio" Examples.thirds)
              Examples.thirds _
              (conj eq_refl (conj eq_refl eq_refl)) eq_refl eq_refl)
    as (caps & _ & _ & _ & H).
  apply (H Examples.thirds_allocations).
  - reflexivity.
  - repeat constructor.
  - cbn. lia.
  - apply Qle_bool_iff. vm_compute. reflexivity.
Defined.

(* ================================================================== *)
(** * More properties of the handler *)
(* ================================================================== *)

Import Service.

Section Envelope.

Variable E : env.

(** Lines 63-67 on an object that carries an object [parameters] and the
    three identifiers. *)
Lemma extract_complete d p tid par rt :
  lookup d "parameters" = Some (JDict p) ->
  lookup d "task_id" = Some tid ->
  lookup d "parent_task" = Some par ->
  lookup d "reply_to" = Some rt ->
  extract (JDict d) =
    Ok (Fields (field d "intent") (field p "holdings") tid par rt).
Proof.
  intros Hp Ht Hpar Hr. unfold extract, get, getitem.
  cbn [rbind]. rewrite Hp. cbn [rbind]. rewrite Ht. cbn [rbind].
  rewrite Hpar. cbn [rbind]. rewrite Hr. reflexivity.
Qed.

(** A request whose fields cannot be read changes nothing. *)
Lemma run_extract_raises data x w :
  extract data = Raise x -> run E (Some (Ok data)) w = w.
Proof.
  intros Hx. unfold run, handle. unfold_m. rewrite Hx. reflexivity.
Qed.

Lemma extract_needs_dict data :
  is_dict data = false -> exists x, extract data = Raise x.
Proof.
  destruct data; try discriminate; intros _; eexists; reflexivity.
Qed.

Lemma extract_needs_key d key :
  In key required_keys -> lookup d key = None ->
  exists x, extract (JDict d) = Raise x.
Proof.
  intros Hin Hk. unfold extract, get, getitem. cbn [rbind].
  destruct (lookup d "parameters") as [v|] eqn:Hp;
    [|eexists; reflexivity].
  cbn [rbind]. destruct v; cbn [rbind]; try (eexists; reflexivity).
  destruct (lookup d "task_id") eqn:Ht; [|eexists; reflexivity].
  cbn [rbind]. destruct (lookup d "parent_task") eqn:Hpar;
    [|eexists; reflexivity].
  cbn [rbind]. destruct (lookup d "reply_to") eqn:Hr;
    [|eexists; reflexivity].
  exfalso. cbn in Hin.
  destruct Hin as [<-|[<-|[<-|[<-|[]]]]]; congruence.
Qed.

Lemma extract_needs_parameters_dict d v :
  lookup d "parameters" = Some v -> is_dict v = false ->
  exists x, extract (JDict d) = Raise x.
Proof.
  intros Hp Hv. unfold extract, get, getitem. cbn [rbind]. rewrite Hp.
  cbn [rbind]. destruct v; try discriminate; eexists; reflexivity.
Qed.

(** The reply of a run is built from the fields of its request. *)
Lemma run_outbox_fields data f :
  extract data = Ok f ->
  outbox (run E (Some (Ok data)) world0) = [] \/
  exists st rd ei,
    (st = "success" \/ st = "failure") /\
    outbox (run E (Some (Ok data)) world0) = [reply E f st rd ei].
Proof.
  intros Hx. unfold run, handle, send. unfold_m. rewrite Hx.
  destruct (process E f world0) as [w1 [[[st rd] ei]|x]] eqn:Hp.
  - destruct (process_spec E f _ _ _ _ _ Hp eq_refl) as [Ho Hs].
    destruct (accepts E (to (reply E f st rd ei))).
    + right. exists st, rd, ei. split; [exact Hs|]. cbn. now rewrite Ho.
    + left. exact Ho.
  - left. cbn.
    unfold process in Hp. destruct (eq_str (intent f) "analyze_portfolio").
    + unfold_m. destruct (iter (portfolio_items f)) as [items|y].
      * destruct (for_each E items locals0 world0) as [w2 [l2|y]] eqn:Hl;
          inversion Hp; subst.
        apply (for_each_outbox E _ _ _ _ _ Hl).
      * inversion Hp; subst. reflexivity.
    + discriminate.
Qed.

(** A run on a request with another intent. *)
Lemma run_other_intent data f :
  extract data = Ok f ->
  eq_str (intent f) "analyze_portfolio" = false ->
  accepts E (reply_to f) = true ->
  run E (Some (Ok data)) world0 =
    World []
      [reply E f "failure" None_
         (VDict [("code", VStr "UNEXPECTED_INTENT");
                 ("message", VFormat "Unexpected intent: " (intent f))])].
Proof.
  intros Hx Hi Ha. unfold run, handle, process, send. unfold_m.
  rewrite Hx, Hi. cbn [ret to reply]. rewrite Ha. reflexivity.
Qed.

End Envelope.

(** X1: a decodable request whose envelope can be read and whose intent is
    anything but "analyze_portfolio" (another text, another type, or none)
    gets one failure reply with code UNEXPECTED_INTENT naming the intent; no
    lookup is made and the holdings are not looked at, whatever they are. *)
Theorem unexpected_intent_is_refused E d p tid par rt :
  lookup d "parameters" = Some (JDict p) ->
  lookup d "task_id" = Some tid ->
  lookup d "parent_task" = Some par ->
  lookup d "reply_to" = Some rt ->
  accepts E rt = true ->
  eq_str (field d "intent") "analyze_portfolio" = false ->
  let w := run E (Some (Ok (JDict d))) world0 in
  lookups w = [] /\
  exists m,
    outbox w = [m] /\
    performative m = "failure" /\
    lookup (body m) "status" = Some (VStr "failure") /\
    lookup (body m) "result" = None /\
    reported_error m =
      Some (VDict [("code", VStr "UNEXPECTED_INTENT");
                   ("message", VFormat "Unexpected intent: " (field d "intent"))]).
Proof.
  intros Hp Ht Hpar Hr Ha Hi w. unfold w.
  rewrite (run_other_intent E _ _ (extract_complete d p tid par rt Hp Ht Hpar Hr)
             Hi Ha).
  split; [reflexivity|]. eexists. split; [reflexivity|].
  cbn. repeat split.
Qed.

Lemma unexpected_intent_is_refused_witness :
  let d := [("parameters", JDict []); ("task_id", JInt 7);
            ("parent_task", JNull); ("reply_to", JStr "orchestrator@localhost")] in
  lookups (run Examples.E0 (Some (Ok (JDict d))) world0) = [] /\
  map reported_error (outbox (run Examples.E0 (Some (Ok (JDict d))) world0)) =
  [Some (VDict [("code", VStr "UNEXPECTED_INTENT");
                ("message", VFormat "Unexpected intent: " JNull)])].
Proof.
  intros d.
  destruct (unexpected_intent_is_refused Examples.E0 d [] (JInt 7) JNull
              (JStr "orchestrator@localhost")
              eq_refl eq_refl eq_refl eq_refl eq_refl eq_refl)
    as (Hl & m & Hm & _ & _ & _ & He).
  split; [exact Hl|]. rewrite Hm. cbn [map]. now rewrite He.
Defined.

(** X2: a decodable request that is not an object, or lacks one of
    [parameters], [task_id], [parent_task], [reply_to], or whose
    [parameters] is not an object, is dropped: the run leaves the world as
    it found it, with no lookup and no reply, whatever the intent and the
    holdings. *)
Theorem unreadable_envelope_is_dropped E data w :
  (is_dict data = false \/
   (exists d key, data = JDict d /\ In key required_keys /\
                  lookup d key = None) \/
   (exists d v, data = JDict d /\ lookup d "parameters" = Some v /\
                is_dict v = false)) ->
  run E (Some (Ok data)) w = w.
Proof.
  intros [H|[(d & key & -> & Hin & Hk)|(d & v & -> & Hp & Hv)]].
  - destruct (extract_needs_dict data H) as [x Hx].
    exact (run_extract_raises E data x w Hx).
  - destruct (extract_needs_key d key Hin Hk) as [x Hx].
    exact (run_extract_raises E _ x w Hx).
  - destruct (extract_needs_parameters_dict d v Hp Hv) as [x Hx].
    exact (run_extract_raises E _ x w Hx).
Qed.

Lemma unreadable_envelope_is_dropped_witness :
  run Examples.E0 (Some (Ok Examples.request_without_task_id)) world0 = world0.
Proof.
  apply unreadable_envelope_is_dropped. right. left.
  eexists. exists "task_id". split; [reflexivity|]. split; [|reflexivity].
  right. left. reflexivity.
Defined.

(** X3: every reply to a request whose envelope can be read is addressed to
    the request's [reply_to] under the ontology "finance-task", echoes its
    [task_id], [parent_task] and [intent], carries the constants of the
    protocol and the time of the clock, and has the performative "inform"
    when its status is "success" and "failure" otherwise. *)
Theorem reply_echoes_the_request E d p tid par rt m :
  lookup d "parameters" = Some (JDict p) ->
  lookup d "task_id" = Some tid ->
  lookup d "parent_task" = Some par ->
  lookup d "reply_to" = Some rt ->
  In m (outbox (run E (Some (Ok (JDict d))) world0)) ->
  to m = rt /\
  ontology m = "finance-task" /\
  lookup (body m) "protocol" = Some (VStr "finance_mcp") /\
  lookup (body m) "version" = Some (VStr "1.0") /\
  lookup (body m) "type" = Some (VStr "response") /\
  lookup (body m) "task_id" = Some (VJson tid) /\
  lookup (body m) "parent_task" = Some (VJson par) /\
  lookup (body m) "intent" = Some (VJson (field d "intent")) /\
  lookup (body m) "timestamp" = Some (VStr (utcnow E)) /\
  (lookup (body m) "status" = Some (VStr "success") /\ performative m = "inform" \/
   lookup (body m) "status" = Some (VStr "failure") /\ performative m = "failure").
Proof.
  intros Hp Ht Hpar Hr Hin.
  destruct (run_outbox_fields E _ _ (extract_complete d p tid par rt Hp Ht Hpar Hr))
    as [H|(st & rd & ei & Hs & H)]; rewrite H in Hin; cbn in Hin;
    [contradiction|].
  destruct Hin as [<-|[]].
  destruct Hs as [-> | ->]; cbn; repeat split; auto.
Qed.

Lemma reply_echoes_the_request_witness :
  let m := reply Examples.E0
             (Examples.the_fields "analyze_portfolio" Examples.scenario_A)
             "success" Examples.scenario_A_result None_ in
  In m (outbox (run Examples.E0
                  (Some (Ok (Examples.request "analyze_portfolio"
                               Examples.scenario_A))) world0)) /\
  to m = JStr "orchestrator@localhost" /\
  lookup (body m) "task_id" = Some (VJson (JStr "task-1")).
Proof.
  intros m.
  assert (Hin : In m (outbox (run Examples.E0
                                (Some (Ok (Examples.request "analyze_portfolio"
                                             Examples.scenario_A))) world0))).
  { left. vm_compute. reflexivity. }
  split; [exact Hin|].
  destruct (reply_echoes_the_request Examples.E0
              [("intent", JStr "analyze_portfolio");
               ("parameters", JDict [("holdings", JList Examples.scenario_A)]);
               ("task_id", JStr "task-1");
               ("parent_task", JStr "root-0");
               ("reply_to", JStr "orchestrator@localhost")]
              [("holdings", JList Examples.scenario_A)]
              (JStr "task-1") (JStr "root-0") (JStr "orchestrator@localhost") m
              eq_refl eq_refl eq_refl eq_refl Hin)
    as (Hto & _ & _ & _ & _ & Hid & _).
  split; [exact Hto | exact Hid].
Defined.

Section Batch.

Variable E : env.

(** A turn of the loop makes a lookup only for a usable holding. *)
Lemma loop_body_lookup_inv item l w w' r :
  loop_body E item l w = (w', r) ->
  lookups w' = lookups w \/
  (lookups w' = lookups w ++ [symbol_of item] /\ usable item).
Proof.
  destruct item as [| | | | |?|d];
    try (cbn; intros H; inversion H; subst; auto; fail).
  destruct (truthy (field d "symbol") && truthy (field d "allocation")) eqn:Hv.
  - rewrite (loop_body_valid E d l w Hv).
    apply andb_true_iff in Hv as [Hsym _].
    destruct (rbind (strip (field d "allocation")) float_of_string) as [a|x] eqn:Ha.
    + assert (Hu : usable (JDict d)).
      { split; [exact Hsym|]. exists a. exact Ha. }
      destruct (fetch E (List.length (lookups w)) (field d "symbol"))
        as [api|x] eqn:Hf.
      * rewrite (try_block_lookup_ok E _ _ l w a api Ha Hf). cbn zeta.
        destruct (rbind (price_field api) _) as [p|x].
        -- destruct (truediv _ p); intros H; inversion H; subst; cbn; auto.
        -- intros H; inversion H; subst; cbn; auto.
      * rewrite (try_block_lookup_error E _ _ l w a x Ha Hf).
        intros H; inversion H; subst; cbn; auto.
    + rewrite (try_block_parse_error E _ _ l w x Ha).
      intros H; inversion H; subst; auto.
  - rewrite (loop_body_invalid E d l w Hv).
    intros H; inversion H; subst; auto.
Qed.

(** The lookups of the loop: those of a prefix of its holdings, all of
    them usable. *)
Lemma for_each_lookups_prefix items : forall l w w' r,
  for_each E items l w = (w', r) ->
  exists n, (n <= List.length items)%nat /\
            lookups w' = lookups w ++ map symbol_of (firstn n items) /\
            Forall usable (firstn n items).
Proof.
  assert (Hstop : forall item rest w w',
            lookups w' = lookups w \/
            (lookups w' = lookups w ++ [symbol_of item] /\ usable item) ->
            exists n, (n <= List.length (item :: rest))%nat /\
              lookups w' = lookups w ++ map symbol_of (firstn n (item :: rest)) /\
              Forall usable (firstn n (item :: rest))).
  { intros item rest w w' [Hl|[Hl Hu]].
    - exists 0%nat. split; [cbn; lia|]. cbn. rewrite app_nil_r.
      split; [exact Hl | constructor].
    - exists 1%nat. split; [cbn; lia|]. cbn. split; [exact Hl|].
      constructor; [exact Hu | constructor]. }
  induction items as [|item items IH]; intros l w w' r H; cbn [for_each] in H.
  - inversion H; subst. exists 0%nat. split; [lia|]. cbn.
    rewrite app_nil_r. split; [reflexivity | constructor].
  - unfold bind in H.
    destruct (loop_body E item l w) as [w1 [[l1|l1]|x]] eqn:Hb;
      pose proof (loop_body_lookup_inv _ _ _ _ _ Hb) as Hinv.
    + destruct (IH _ _ _ _ H) as (n & Hn & Hl & Hu).
      pose proof (loop_body_next_lookups E _ _ _ _ _ Hb) as Hnext.
      assert (Hitem : usable item).
      { destruct Hinv as [Hsame|[_ Hi]]; [|exact Hi].
        rewrite Hsame in Hnext. apply (f_equal (@List.length json)) in Hnext.
        rewrite length_app in Hnext. cbn in Hnext. lia. }
      exists (S n). split; [cbn; lia|]. cbn [firstn map].
      split; [|constructor; assumption].
      rewrite Hl, Hnext, <- app_assoc. reflexivity.
    + inversion H; subst. now apply Hstop.
    + inversion H; subst. now apply Hstop.
Qed.

(** The lookups of a run are those of its loop. *)
Lemma run_lookups data f items w r :
  analyze_request data f items ->
  for_each E items locals0 world0 = (w, r) ->
  lookups (run E (Some (Ok data)) world0) = lookups w.
Proof.
  intros (Hx & Hi & Hit) Hl. unfold run, handle, process, send. unfold_m.
  rewrite Hx, Hi, Hit, Hl. destruct r as [l|x]; [|reflexivity].
  cbn [to reply]. destruct (accepts E (reply_to f)); reflexivity.
Qed.

(** The holdings a completed loop has appended: one for each item, in
    order, under its symbol and with a price that is not zero. *)
Lemma complete_holdings items : forall l w l' w',
  complete E items l w = Some (l', w') ->
  exists hs,
    detailed_holdings l' = detailed_holdings l ++ hs /\
    map holding_symbol hs = map (fun item => Some (VJson (symbol_of item))) items /\
    Forall (fun h => exists p, holding_price h = Some (VFloat p) /\
                               PrimFloat.eqb p zero = false) hs.
Proof.
  induction items as [|item items IH]; intros l w l' w' H; cbn [complete] in H.
  - inversion H; subst. exists []. rewrite app_nil_r. repeat split. constructor.
  - destruct (loop_body E item l w) as [w1 [[l1|l1]|x]] eqn:Hb; try discriminate.
    destruct (loop_body_next_inv E _ _ _ _ _ Hb)
      as (d & a & p & -> & _ & Hp & _ & _ & Hd).
    destruct (IH _ _ _ _ H) as (hs & Hhs & Hsym & Hpr).
    eexists (_ :: hs). rewrite Hhs, Hd, <- app_assoc. split; [reflexivity|].
    split.
    + cbn [map]. rewrite Hsym. reflexivity.
    + constructor; [|exact Hpr]. exists p. split; [reflexivity | exact Hp].
Qed.

(** What a turn of the loop that breaks leaves as error. *)
Lemma loop_body_break_inv item l w w' l' :
  loop_body E item l w = (w', Ok (Break l')) ->
  error_info l' = invalid_portfolio_item item \/
  error_info l' = api_fetch_error (symbol_of item).
Proof.
  destruct item as [| | | | |?|d]; try (cbn; discriminate).
  destruct (truthy (field d "symbol") && truthy (field d "allocation")) eqn:Hv.
  - rewrite (loop_body_valid E d l w Hv).
    destruct (try_block E _ _ l w) as [w1 [l1|x]]; [discriminate|].
    intros H; inversion H; subst. right. reflexivity.
  - rewrite (loop_body_invalid E d l w Hv).
    intros H; inversion H; subst. left. reflexivity.
Qed.

(** The error of a loop that failed names one of its holdings. *)
Lemma for_each_error items : forall l w w' l',
  for_each E items l w = (w', Ok l') ->
  status l = "success" -> status l' = "failure" ->
  exists item, In item items /\
    (error_info l' = invalid_portfolio_item item \/
     error_info l' = api_fetch_error (symbol_of item)).
Proof.
  induction items as [|item items IH]; intros l w w' l' H Hs Hf;
    cbn [for_each] in H.
  - inversion H; subst. congruence.
  - unfold bind in H.
    destruct (loop_body E item l w) as [w1 [[l1|l1]|x]] eqn:Hb; try discriminate.
    + pose proof (loop_body_status E _ _ _ _ _ Hb) as Hst. cbn in Hst.
      destruct (IH _ _ _ _ H (eq_trans Hst Hs) Hf) as (it & Hin & He).
      exists it. split; [now right | exact He].
    + inversion H; subst. exists item. split; [now left|].
      exact (loop_body_break_inv _ _ _ _ _ Hb).
Qed.

(** A loop that failed does not look at the holdings that follow. *)
Lemma for_each_failure_app items post : forall l w w' l',
  for_each E items l w = (w', Ok l') ->
  status l = "success" -> status l' = "failure" ->
  for_each E (items ++ post) l w = (w', Ok l').
Proof.
  induction items as [|item items IH]; intros l w w' l' H Hs Hf;
    cbn [for_each app] in H |- *.
  - inversion H; subst. congruence.
  - unfold bind in H |- *.
    destruct (loop_body E item l w) as [w1 [[l1|l1]|x]] eqn:Hb; try discriminate.
    + pose proof (loop_body_status E _ _ _ _ _ Hb) as Hst. cbn in Hst.
      apply IH; auto. congruence.
    + exact H.
Qed.

(** On anything but an object the loop body raises at line 79. *)
Lemma loop_body_not_dict item l w :
  is_dict item = false -> loop_body E item l w = (w, Raise AttributeError).
Proof. destruct item; try discriminate; reflexivity. Qed.

(** A run sends at most one message and keeps what was sent before. *)
Lemma run_outbox_grows msg w :
  exists ms, outbox (run E msg w) = outbox w ++ ms /\
             (List.length ms <= 1)%nat /\
             (msg = None -> ms = []).
Proof.
  assert (Hnil : forall w', outbox w' = outbox w ->
            exists ms, outbox w' = outbox w ++ ms /\
                       (List.length ms <= 1)%nat /\ (msg = None -> ms = [])).
  { intros w' Ho. exists []. rewrite app_nil_r. split; [exact Ho|].
    split; [cbn; lia | reflexivity]. }
  destruct msg as [[data|x]|]; try (apply Hnil; reflexivity).
  assert (Hp : forall f w1 r, process E f w = (w1, r) -> outbox w1 = outbox w).
  { intros f w1 r. unfold process.
    destruct (eq_str (intent f) "analyze_portfolio").
    - unfold_m. destruct (iter (portfolio_items f)) as [items|y].
      + destruct (for_each E items locals0 w) as [w2 [l2|y]] eqn:Hl;
          intros H; inversion H; subst; apply (for_each_outbox E _ _ _ _ _ Hl).
      + intros H; inversion H; now subst.
    - unfold ret. intros H; inversion H; now subst. }
  unfold run, handle, send. unfold_m.
  destruct (extract data) as [f|x]; [|apply Hnil; reflexivity].
  destruct (process E f w) as [w1 [[[st rd] ei]|x]] eqn:Hpr;
    pose proof (Hp _ _ _ Hpr) as Ho; [|apply Hnil; exact Ho].
  destruct (accepts E (to (reply E f st rd ei))); [|apply Hnil; exact Ho].
  exists [reply E f st rd ei]. cbn [fst outbox]. rewrite Ho.
  split; [reflexivity|]. split; [cbn; lia | discriminate].
Qed.

End Batch.

Section Replies.

Variable E : env.

Lemma outbox_singleton msg m :
  In m (outbox (run E msg world0)) -> outbox (run E msg world0) = [m].
Proof.
  destruct (run_outbox E msg) as [H|(f & st & rd & ei & _ & H)];
    rewrite H; cbn; [contradiction|].
  intros [<-|[]]. reflexivity.
Qed.

(** The two ways a reply comes about. *)
Lemma run_reply_cases data f m :
  extract data = Ok f ->
  In m (outbox (run E (Some (Ok data)) world0)) ->
  (eq_str (intent f) "analyze_portfolio" = false /\
   m = reply E f "failure" None_
         (VDict [("code", VStr "UNEXPECTED_INTENT");
                 ("message", VFormat "Unexpected intent: " (intent f))])) \/
  (exists items, analyze_request data f items).
Proof.
  intros Hx Hin.
  destruct (eq_str (intent f) "analyze_portfolio") eqn:Hi.
  - right. destruct (iter (portfolio_items f)) as [items|x] eqn:Hit.
    + exists items. repeat split; assumption.
    + exfalso. unfold run, handle, process, send in Hin. unfold_m.
      rewrite Hx, Hi, Hit in Hin. exact Hin.
  - left. split; [reflexivity|].
    unfold run, handle, process, send in Hin. unfold_m.
    rewrite Hx, Hi in Hin. cbn [ret to reply] in Hin.
    destruct (accepts E (reply_to f)); cbn in Hin; [|contradiction].
    destruct Hin as [<-|[]]. reflexivity.
Qed.

(** The reply to a failed loop. *)
Lemma run_failure_inv data f items m :
  analyze_request data f items ->
  In m (outbox (run E (Some (Ok data)) world0)) ->
  lookup (body m) "status" = Some (VStr "failure") ->
  exists w l,
    for_each E items locals0 world0 = (w, Ok l) /\
    status l = "failure" /\
    m = reply E f "failure" None_ (error_info l).
Proof.
  intros Hreq Hin Hst.
  destruct (run_analyze_inv E data f items m Hreq (outbox_singleton _ _ Hin))
    as (w & l & Hl & ->).
  rewrite reply_status in Hst. injection Hst as Hs.
  exists w, l. split; [exact Hl|]. split; [exact Hs|]. now rewrite Hs.
Qed.

Lemma complete_outbox items l w l' w' :
  complete E items l w = Some (l', w') -> outbox w' = outbox w.
Proof.
  intros Hc.
  pose proof (for_each_complete E items [] l w l' w' Hc) as H.
  rewrite app_nil_r in H. cbn [for_each] in H.
  exact (for_each_outbox E _ _ _ _ _ H).
Qed.

End Replies.

(** X4: in a run on an "analyze_portfolio" request, the lookups made are
    exactly the symbols of the first [n] holdings, in their order, for some
    [n] up to the number of holdings, and each of these holdings has a
    non-empty symbol and an allocation that reads as a number: at most one
    lookup for a holding, none out of order, none after a holding that was
    not looked up, and none for a holding the loop rejects before line
    101. *)
Theorem lookups_follow_the_holdings E data f items :
  analyze_request data f items ->
  exists n, (n <= List.length items)%nat /\
    lookups (run E (Some (Ok data)) world0) = map symbol_of (firstn n items) /\
    Forall usable (firstn n items).
Proof.
  intros Hreq.
  destruct (for_each E items locals0 world0) as [w r] eqn:Hl.
  rewrite (run_lookups E data f items w r Hreq Hl).
  exact (for_each_lookups_prefix E items _ _ _ _ Hl).
Qed.

Lemma lookups_follow_the_holdings_witness :
  let hs := [JDict (Examples.holding "AAPL" "50%");
             JDict (Examples.holding "NFLX" "25%");
             JDict (Examples.holding "MSFT" "25%")] in
  exists n, (n <= 3)%nat /\
    lookups (run Examples.E0
               (Some (Ok (Examples.request "analyze_portfolio" hs))) world0) =
    map symbol_of (firstn n hs) /\
    Forall usable (firstn n hs).
Proof.
  intros hs.
  apply (lookups_follow_the_holdings Examples.E0
           (Examples.request "analyze_portfolio" hs)
           (Examples.the_fields "analyze_portfolio" hs) hs).
  repeat split.
Defined.

(** X5: when the reply to an "analyze_portfolio" request is a success, every
    holding of the request was looked up once, in order, and the reply lists
    one holding for each, in the same order and under its symbol, each with a
    price that is not zero; num_holdings is the number of holdings of the
    request. *)
Theorem success_lists_every_holding E data f items m :
  analyze_request data f items ->
  outbox (run E (Some (Ok data)) world0) = [m] ->
  lookup (body m) "status" = Some (VStr "success") ->
  lookups (run E (Some (Ok data)) world0) = map symbol_of items /\
  reported_count m = Some (VInt (Z.of_nat (List.length items))) /\
  exists hs,
    reported_holdings m = Some (VList hs) /\
    map holding_symbol hs = map (fun item => Some (VJson (symbol_of item))) items /\
    Forall (fun h => exists p, holding_price h = Some (VFloat p) /\
                               PrimFloat.eqb p zero = false) hs.
Proof.
  intros Hreq Hm Hst.
  destruct (run_analyze_inv E data f items m Hreq Hm) as (w & l & Hl & ->).
  rewrite reply_status in Hst. injection Hst as Hs.
  pose proof (for_each_success E _ _ _ _ _ Hl eq_refl Hs) as Hc.
  destruct (complete_holdings E items _ _ _ _ Hc) as (hs & Hd & Hsym & Hpr).
  cbn [detailed_holdings locals0 app] in Hd.
  rewrite (run_lookups E data f items w _ Hreq Hl), Hs.
  split; [rewrite (complete_lookups E _ _ _ _ _ Hc); reflexivity|].
  change (if String.eqb "success" "success" then summary l else None_)
    with (summary l).
  assert (Hn : List.length hs = List.length items).
  { rewrite <- (length_map holding_symbol hs), Hsym. apply length_map. }
  split.
  - change (reported_count (reply E f "success" (summary l) (error_info l)))
      with (Some (VInt (Z.of_nat (List.length (detailed_holdings l))))).
    now rewrite Hd, Hn.
  - exists hs. split; [|split; assumption].
    change (reported_holdings (reply E f "success" (summary l) (error_info l)))
      with (Some (VList (detailed_holdings l))).
    now rewrite Hd.
Qed.

Lemma success_lists_every_holding_witness :
  lookups (run Examples.E0
             (Some (Ok (Examples.request "analyze_portfolio" Examples.scenario_A)))
             world0) = [JStr "AAPL"; JStr "MSFT"] /\
  reported_count
    (reply Examples.E0
       (Examples.the_fields "analyze_portfolio" Examples.scenario_A)
       "success" Examples.scenario_A_result None_) = Some (VInt 2).
Proof.
  destruct (success_lists_every_holding Examples.E0
              (Examples.request "analyze_portfolio" Examples.scenario_A)
              (Examples.the_fields "analyze_portfolio" Examples.scenario_A)
              Examples.scenario_A
              (reply Examples.E0
                 (Examples.the_fields "analyze_portfolio" Examples.scenario_A)
                 "success" Examples.scenario_A_result None_)
              (conj eq_refl (conj eq_refl eq_refl)))
    as (Hl & Hc & _).
  - vm_compute. reflexivity.
  - reflexivity.
  - split; [exact Hl | exact Hc].
Defined.

(** X6: every failure reply carries an error whose code is one of
    UNEXPECTED_INTENT, INVALID_PORTFOLIO_ITEM and API_FETCH_ERROR. *)
Theorem failure_code_is_one_of_three E msg m :
  In m (outbox (run E msg world0)) ->
  lookup (body m) "status" = Some (VStr "failure") ->
  exists err code,
    reported_error m = Some err /\
    error_code err = Some (VStr code) /\
    In code error_codes.
Proof.
  intros Hin Hst.
  destruct msg as [[data|x]|]; try contradiction.
  destruct (extract data) as [f|x] eqn:Hx.
  2: { unfold run, handle in Hin. unfold_m. rewrite Hx in Hin. contradiction. }
  destruct (run_reply_cases E data f m Hx Hin) as [[_ ->]|[items Hreq]].
  - eexists. exists "UNEXPECTED_INTENT".
    split; [reflexivity|]. split; [reflexivity|]. left. reflexivity.
  - destruct (run_failure_inv E data f items m Hreq Hin Hst)
      as (w & l & Hl & Hs & ->).
    destruct (for_each_error E items _ _ _ _ Hl eq_refl Hs)
      as (item & _ & [He|He]); exists (error_info l); rewrite He.
    + exists "INVALID_PORTFOLIO_ITEM". split; [reflexivity|].
      split; [reflexivity|]. right. left. reflexivity.
    + exists "API_FETCH_ERROR". split; [reflexivity|].
      split; [reflexivity|]. right. right. left. reflexivity.
Qed.

Lemma failure_code_is_one_of_three_witness :
  let m := reply Examples.E0
             (Examples.the_fields "analyze_portfolio" [JDict []])
             "failure" None_ (invalid_portfolio_item (JDict [])) in
  In m (outbox (run Examples.E0
                  (Some (Ok (Examples.request "analyze_portfolio" [JDict []])))
                  world0)) /\
  exists err code,
    reported_error m = Some err /\
    error_code err = Some (VStr code) /\ In code error_codes.
Proof.
  intros m.
  assert (Hin : In m (outbox (run Examples.E0
                                (Some (Ok (Examples.request "analyze_portfolio"
                                             [JDict []]))) world0))).
  { left. reflexivity. }
  split; [exact Hin|].
  exact (failure_code_is_one_of_three Examples.E0 _ m Hin eq_refl).
Defined.







(** X10: in a request with intent "analyze_portfolio", when the loop reaches
    an item of the holdings that is not an object (the holdings before it
    having been processed to completion), the AttributeError of line 79 is
    outside the inner [try]: nothing is sent, whatever follows, although the
    lookups of the holdings before it have been made. *)
Theorem holding_that_is_no_object_drops_the_request E data f pre item post l1 w1 :
  analyze_request data f (pre ++ item :: post) ->
  complete E pre locals0 world0 = Some (l1, w1) ->
  is_dict item = false ->
  run E (Some (Ok data)) world0 = World (map symbol_of pre) [].
Proof.
  intros (Hx & Hi & Hit) Hc Hd.
  destruct (complete_lookups0 E pre l1 w1 Hc) as [Hl _].
  pose proof (complete_outbox E _ _ _ _ _ Hc) as Ho. cbn in Ho.
  unfold run, handle, process. unfold_m. rewrite Hx, Hi, Hit.
  rewrite (for_each_complete E pre (item :: post) _ _ _ _ Hc).
  cbn [for_each]. unfold bind.
  rewrite (loop_body_not_dict E item l1 w1 Hd). cbn [fst].
  destruct w1 as [ls ob]. cbn in Hl, Ho. now subst.
Qed.

Lemma holding_that_is_no_object_drops_the_request_witness :
  run Examples.E0
    (Some (Ok (Examples.request "analyze_portfolio"
                 [JDict (Examples.holding "AAPL" "50%"); JStr "MSFT"]))) world0 =
  World [JStr "AAPL"] [].
Proof.
  refine (holding_that_is_no_object_drops_the_request Examples.E0
            (Examples.request "analyze_portfolio"
               [JDict (Examples.holding "AAPL" "50%"); JStr "MSFT"])
            (Examples.the_fields "analyze_portfolio"
               [JDict (Examples.holding "AAPL" "50%"); JStr "MSFT"])
            [JDict (Examples.holding "AAPL" "50%")] (JStr "MSFT") [] _ _ _ _ _).
  - repeat split.
  - vm_compute. reflexivity.
  - reflexivity.
Defined.

(** X11: a request with intent "analyze_portfolio" whose [parameters] has
    no [holdings], or has holdings that are not a list, an object or a
    text, is dropped: the TypeError of line 78 reaches the outer handler and
    the run leaves the world as it found it. *)
Theorem holdings_that_cannot_be_iterated_drop_the_request E d p tid par rt w :
  lookup d "parameters" = Some (JDict p) ->
  lookup d "task_id" = Some tid ->
  lookup d "parent_task" = Some par ->
  lookup d "reply_to" = Some rt ->
  eq_str (field d "intent") "analyze_portfolio" = true ->
  iterable (field p "holdings") = false ->
  run E (Some (Ok (JDict d))) w = w.
Proof.
  intros Hp Ht Hpar Hr Hi Hit.
  unfold run, handle, process. unfold_m.
  rewrite (extract_complete d p tid par rt Hp Ht Hpar Hr).
  cbn [intent portfolio_items]. rewrite Hi.
  destruct (field p "holdings"); try discriminate; reflexivity.
Qed.

Lemma holdings_that_cannot_be_iterated_drop_the_request_witness :
  run Examples.E0
    (Some (Ok (JDict [("intent", JStr "analyze_portfolio");
                      ("parameters", JDict []);
                      ("task_id", JStr "task-1");
                      ("parent_task", JStr "root-0");
                      ("reply_to", JStr "orchestrator@localhost")]))) world0 =
  world0.
Proof.
  apply (holdings_that_cannot_be_iterated_drop_the_request Examples.E0 _ []
           (JStr "task-1") (JStr "root-0") (JStr "orchestrator@localhost"));
    reflexivity.
Defined.

(** X12: when the reply to an "analyze_portfolio" request is a failure, a
    request that differs only by more holdings after the same ones gets the
    same lookups and the same reply: the loop stopped, and what follows the
    failing holding is never looked at. *)
Theorem failed_batch_ignores_later_holdings E data data' f f' items post m :
  analyze_request data f items ->
  analyze_request data' f' (items ++ post) ->
  intent f' = intent f -> task_id f' = task_id f ->
  parent f' = parent f -> reply_to f' = reply_to f ->
  outbox (run E (Some (Ok data)) world0) = [m] ->
  lookup (body m) "status" = Some (VStr "failure") ->
  run E (Some (Ok data')) world0 = run E (Some (Ok data)) world0.
Proof.
  intros Hreq Hreq' Hi Ht Hp Hr Hm Hst.
  assert (Hin : In m (outbox (run E (Some (Ok data)) world0))).
  { rewrite Hm. now left. }
  destruct (run_failure_inv E data f items m Hreq Hin Hst)
    as (w & l & Hl & Hs & ->).
  pose proof (for_each_failure_app E items post _ _ _ _ Hl eq_refl Hs) as Hl'.
  destruct Hreq as (Hx & Hia & Hit). destruct Hreq' as (Hx' & Hia' & Hit').
  unfold run, handle, process, send. unfold_m.
  rewrite Hx, Hx', Hia, Hia', Hit, Hit', Hl, Hl'.
  unfold reply, reply_mcp. cbn [to]. now rewrite Hi, Ht, Hp, Hr.
Qed.

Lemma failed_batch_ignores_later_holdings_witness :
  let hs := [JDict (Examples.holding "NFLX" "50%")] in
  let post := [JDict (Examples.holding "AAPL" "50%"); JNull] in
  run Examples.E0
    (Some (Ok (Examples.request "analyze_portfolio" (hs ++ post)))) world0 =
  run Examples.E0 (Some (Ok (Examples.request "analyze_portfolio" hs))) world0.
Proof.
  intros hs post.
  apply (failed_batch_ignores_later_holdings Examples.E0
           (Examples.request "analyze_portfolio" hs)
           (Examples.request "analyze_portfolio" (hs ++ post))
           (Examples.the_fields "analyze_portfolio" hs)
           (Examples.the_fields "analyze_portfolio" (hs ++ post)) hs post
           (reply Examples.E0 (Examples.the_fields "analyze_portfolio" hs)
              "failure" None_ (api_fetch_error (JStr "NFLX"))));
    try reflexivity; repeat split.
Defined.

(** X13: no reply of the handler matches the template the behaviour is
    registered with in [setup]: a reply has the performative "inform" or
    "failure", the template asks for "request", so the agent does not take
    its own replies for requests. *)
Theorem replies_do_not_match_the_template E msg m :
  In m (outbox (run E msg world0)) ->
  matches request_template m = false.
Proof.
  intros Hin.
  destruct (run_outbox E msg) as [H|(f & st & rd & ei & Hs & H)];
    rewrite H in Hin; cbn in Hin; [contradiction|].
  destruct Hin as [<-|[]].
  destruct Hs as [-> | ->]; reflexivity.
Qed.

Lemma replies_do_not_match_the_template_witness :
  let m := reply Examples.E0
             (Examples.the_fields "analyze_portfolio" Examples.scenario_A)
             "success" Examples.scenario_A_result None_ in
  matches request_template m = false /\
  matches request_template
    (Message (JStr "portfolio@localhost") "request" "finance-task" []) = true.
Proof.
  intros m. split; [|reflexivity].
  apply (replies_do_not_match_the_template Examples.E0
           (Some (Ok (Examples.request "analyze_portfolio" Examples.scenario_A)))).
  left. vm_compute. reflexivity.
Defined.

(** X14: when the transport does not take [reply_to] as an address, the
    request is processed all the same and only the reply is lost: nothing
    is sent, and the lookups are those of the run with a transport that
    takes the address. *)
Theorem refused_address_loses_the_reply_only E data f :
  extract data = Ok f ->
  accepts E (reply_to f) = false ->
  outbox (run E (Some (Ok data)) world0) = [] /\
  lookups (run E (Some (Ok data)) world0) =
  lookups (run (accepting E) (Some (Ok data)) world0).
Proof.
  intros Hx Ha.
  assert (Hp : process (accepting E) f world0 = process E f world0).
  { symmetry. apply process_replay. intros i symbol. reflexivity. }
  unfold run, handle, send. unfold_m. rewrite Hx, Hp.
  destruct (process E f world0) as [w1 [[[st rd] ei]|x]] eqn:Hpr.
  - destruct (process_spec E f _ _ _ _ _ Hpr eq_refl) as [Ho _].
    cbn [to reply accepts accepting]. rewrite Ha. cbn. split; [exact Ho|reflexivity].
  - cbn. split; [|reflexivity].
    unfold process in Hpr. destruct (eq_str (intent f) "analyze_portfolio").
    + unfold_m. destruct (iter (portfolio_items f)) as [items|y].
      * destruct (for_each E items locals0 world0) as [w2 [l2|y]] eqn:Hl;
          inversion Hpr; subst.
        apply (for_each_outbox E _ _ _ _ _ Hl).
      * inversion Hpr; subst. reflexivity.
    + discriminate.
Qed.

Lemma refused_address_loses_the_reply_only_witness :
  run E_deaf
    (Some (Ok (Examples.request "analyze_portfolio" Examples.scenario_A)))
    world0 = World [JStr "AAPL"; JStr "MSFT"] [] /\
  outbox (run E_deaf
            (Some (Ok (Examples.request "analyze_portfolio" Examples.scenario_A)))
            world0) = [].
Proof.
  split; [vm_compute; reflexivity|].
  apply (refused_address_loses_the_reply_only E_deaf
           (Examples.request "analyze_portfolio" Examples.scenario_A)
           (Examples.the_fields "analyze_portfolio" Examples.scenario_A));
    reflexivity.
Defined.

(** X15: over any sequence of things received, the behaviour sends at most
    one reply for each message, none for a wait that timed out, and never
    takes back a message it has sent. *)
Theorem at_most_one_reply_per_message E received w :
  exists ms,
    outbox (serve E received w) = outbox w ++ ms /\
    (List.length ms <=
     List.length (filter (fun msg => match msg with Some _ => true | None => false end)
                    received))%nat.
Proof.
  revert w. induction received as [|msg received IH]; intros w; cbn [serve fold_left].
  - exists []. rewrite app_nil_r. split; [reflexivity | cbn; lia].
  - destruct (IH (run E msg w)) as (ms2 & H2 & Hn2).
    destruct (run_outbox_grows E msg w) as (ms1 & H1 & Hn1 & Hnone).
    exists (ms1 ++ ms2). unfold serve in H2. rewrite H2, H1, <- app_assoc.
    split; [reflexivity|]. rewrite length_app. cbn [filter].
    destruct msg as [decoded|]; cbn [List.length]; [lia|].
    rewrite (Hnone eq_refl). cbn. lia.
Qed.

Section Strip.

Variable p : ascii -> bool.

Lemma drop_while_app l m :
  drop_while p (l ++ m) =
  match drop_while p l with
  | [] => drop_while p m
  | r => r ++ m
  end.
Proof.
  induction l as [|c l IH]; cbn [drop_while app]; [reflexivity|].
  destruct (p c); [exact IH | reflexivity].
Qed.

(** Stripping ignores one more character to strip at either end. *)
Lemma strip_by_cons c l : p c = true -> strip_by p (c :: l) = strip_by p l.
Proof. intros H. unfold strip_by. cbn [drop_while]. now rewrite H. Qed.

Lemma strip_by_snoc c l : p c = true -> strip_by p (l ++ [c]) = strip_by p l.
Proof.
  intros H. unfold strip_by. rewrite drop_while_app.
  destruct (drop_while p l) as [|x r] eqn:Hd.
  - cbn [drop_while]. now rewrite H.
  - rewrite rev_app_distr. cbn [rev app drop_while]. now rewrite H.
Qed.

End Strip.

Lemma list_ascii_of_string_app s1 s2 :
  list_ascii_of_string (s1 ++ s2) =
  list_ascii_of_string s1 ++ list_ascii_of_string s2.
Proof.
  induction s1 as [|c s1 IH]; cbn; [reflexivity | now rewrite IH].
Qed.

(** X16: a percent sign more at the end or at the start of an allocation
    text does not change the percentage line 91 reads, nor whether it reads
    one: "50", "50%", "%50" give the same [allocation_percent] (and a text
    without a number the same ValueError). *)
Theorem percent_signs_are_optional d d1 d2 s :
  field d "allocation" = JStr s ->
  field d1 "allocation" = JStr (s ++ "%") ->
  field d2 "allocation" = JStr ("%" ++ s) ->
  allocation_percent_of (JDict d1) = allocation_percent_of (JDict d) /\
  allocation_percent_of (JDict d2) = allocation_percent_of (JDict d).
Proof.
  intros H H1 H2.
  assert (Hget : forall d0, get (JDict d0) "allocation" JNull =
                            Ok (field d0 "allocation")) by reflexivity.
  unfold allocation_percent_of. rewrite !Hget, H, H1, H2.
  cbn [rbind strip]. unfold strip_percent. split.
  - rewrite list_ascii_of_string_app. cbn [list_ascii_of_string].
    now rewrite strip_by_snoc.
  - cbn [list_ascii_of_string String.append]. now rewrite strip_by_cons.
Qed.

Lemma percent_signs_are_optional_witness :
  allocation_percent_of (JDict (Examples.holding "AAPL" "50%")) = Ok 50%float /\
  allocation_percent_of (JDict (Examples.holding "AAPL" "%50")) = Ok 50%float /\
  allocation_percent_of (JDict (Examples.holding "AAPL" "50")) = Ok 50%float.
Proof.
  destruct (percent_signs_are_optional
              (Examples.holding "AAPL" "50") (Examples.holding "AAPL" "50%")
              (Examples.holding "AAPL" "%50") "50" eq_refl eq_refl eq_refl)
    as [H1 H2].
  rewrite H1, H2. repeat split; vm_compute; reflexivity.
Defined.

Section Stateless.

Variable E : env.
Hypothesis quotes : memoryless E.

Lemma stable_ret {A} (a : A) : stable (ret a).
Proof. intros w w0. reflexivity. Qed.

Lemma stable_lift {A} (r : result A) : stable (lift r).
Proof. intros w w0. reflexivity. Qed.

Lemma stable_bind {A B} (m : M A) (k : A -> M B) :
  stable m -> (forall a, stable (k a)) -> stable (bind m k).
Proof.
  intros Hm Hk w w0. unfold bind. rewrite Hm.
  destruct (m w0) as [w1 [a|x]]; [apply Hk | reflexivity].
Qed.

Lemma stable_try_except {A} (m : M A) (h : exn -> M A) :
  stable m -> (forall x, stable (h x)) -> stable (try_except m h).
Proof.
  intros Hm Hh w w0. unfold try_except. rewrite Hm.
  destruct (m w0) as [w1 [a|x]]; [reflexivity | apply Hh].
Qed.

Lemma stable_http_get symbol : stable (http_get E symbol).
Proof.
  intros w w0. unfold http_get, after. cbn [lookups outbox].
  rewrite <- app_assoc.
  now rewrite (quotes (List.length (lookups w ++ lookups w0))
                 (List.length (lookups w0)) symbol).
Qed.

Lemma stable_send m : stable (send E m).
Proof.
  intros w w0. unfold send, after.
  destruct (accepts E (to m)); cbn [lookups outbox]; [|reflexivity].
  now rewrite <- app_assoc.
Qed.

Lemma stable_lift_bind {A B} (r : result A) (k : A -> M B) :
  (forall a, stable (k a)) -> stable (bind (lift r) k).
Proof. intros Hk. apply stable_bind; [apply stable_lift | exact Hk]. Qed.

Lemma stable_try_block symbol allocation_str l :
  stable (try_block E symbol allocation_str l).
Proof.
  unfold try_block.
  apply stable_lift_bind; intros allocation_percent.
  apply stable_lift_bind; intros fraction.
  apply stable_bind; [apply stable_http_get | intros api_data].
  apply stable_lift_bind; intros price_str.
  apply stable_lift_bind; intros current_price.
  apply stable_lift_bind; intros shares.
  apply stable_ret.
Qed.

Lemma stable_loop_body item l : stable (loop_body E item l).
Proof.
  unfold loop_body.
  apply stable_lift_bind; intros symbol.
  apply stable_lift_bind; intros allocation_str.
  destruct (negb (truthy symbol) || negb (truthy allocation_str)).
  - apply stable_ret.
  - apply stable_try_except; [|intros x; apply stable_ret].
    apply stable_bind; [apply stable_try_block | intros l'; apply stable_ret].
Qed.

Lemma stable_for_each items : forall l, stable (for_each E items l).
Proof.
  induction items as [|item items IH]; intros l; cbn [for_each].
  - apply stable_ret.
  - apply stable_bind; [apply stable_loop_body|].
    intros [l'|l']; [apply IH | apply stable_ret].
Qed.

Lemma stable_process f : stable (process E f).
Proof.
  unfold process. destruct (eq_str (intent f) "analyze_portfolio").
  - apply stable_lift_bind; intros items.
    apply stable_bind; [apply stable_for_each | intros l; apply stable_ret].
  - apply stable_ret.
Qed.

Lemma stable_handle decoded : stable (handle E decoded).
Proof.
  unfold handle.
  apply stable_lift_bind; intros data.
  apply stable_lift_bind; intros f.
  apply stable_bind; [apply stable_process|].
  intros [[st rd] ei]. apply stable_send.
Qed.

Lemma run_after msg w :
  run E msg w = after w (run E msg world0).
Proof.
  assert (Hw : w = after w world0).
  { destruct w. unfold after. cbn. now rewrite !app_nil_r. }
  destruct msg as [decoded|]; [|exact Hw].
  unfold run. rewrite Hw at 1.
  rewrite (stable_try_except _ _ (stable_handle decoded)
             (fun _ => stable_ret tt) w world0).
  destruct (try_except (handle E decoded) (fun _ => ret tt) world0).
  reflexivity.
Qed.

End Stateless.

(** X17: the handler keeps nothing from one request to the next.  With a
    quote service that does not tell one request from the next, a run on a
    world with a past does what the run from the empty world does and leaves
    the past untouched: the same lookups and the same reply follow whatever
    was looked up and sent before. *)
Theorem requests_do_not_interfere E msg w :
  memoryless E ->
  run E msg w = after w (run E msg world0).
Proof. intros H. now apply run_after. Qed.

Lemma requests_do_not_interfere_witness :
  let first := Some (Ok (Examples.request "analyze_portfolio"
                           [JDict (Examples.holding "NFLX" "50%")])) in
  let second := Some (Ok (Examples.request "analyze_portfolio"
                            Examples.scenario_A)) in
  serve Examples.E0 [first; second] world0 =
  after (run Examples.E0 first world0) (run Examples.E0 second world0).
Proof.
  intros first second.
  apply (requests_do_not_interfere Examples.E0 second
           (run Examples.E0 first world0)).
  intros i j symbol. reflexivity.
Defined.
